(** * The conversion workflow's Lambda handlers

    A shallow embedding of the two handlers under
    [infrastructure/lambda-src]: [status-checker.py] (module
    [StatusChecker]) and [processor.py] (module [Processor]).

    Python strings are modelled as [string]; a request is the JSON object
    the orchestrator sends, whose string-valued fields are kept in a
    [gmap string string], so that [event.get(k, d)] and [event[k]] are map
    lookups.  The storage service, the local disk and the standard library
    functions the handlers call are collaborators: their behaviour is a
    parameter of the development and every theorem holds for all of them. *)

From Stdlib Require Import String Ascii NArith List DecimalString.
From Stdlib Require QArith_base.
From stdpp Require Import base gmap strings list.

Local Open Scope string_scope.

(** ** Python strings *)

Module Py.

(** [str(n)] for a non-negative integer. *)
Definition str_nat (n : nat) : string := NilZero.string_of_uint (Nat.to_uint n).
Definition str_N (n : N) : string := NilZero.string_of_uint (N.to_uint n).

(** [s.endswith(suffix)]. *)
Definition endswith (s suffix : string) : bool :=
  (String.length suffix <=? String.length s)%nat
  && String.eqb
       (String.substring (String.length s - String.length suffix)
                         (String.length suffix) s)
       suffix.

(** [s.replace(old, new)] for a non-empty [old]: a left-to-right scan
    replacing every non-overlapping occurrence.  [skip] counts the
    characters of the occurrence just matched that are still to be
    passed over. *)
Fixpoint replace_from (old new : string) (skip : nat) (s : string) : string :=
  match s with
  | EmptyString => EmptyString
  | String c s' =>
      match skip with
      | S k => replace_from old new k s'
      | O =>
          if String.prefix old s
          then new +:+ replace_from old new (String.length old - 1) s'
          else String c (replace_from old new 0 s')
      end
  end.

(** For the empty [old] Python inserts [new] before every character and
    at the end. *)
Fixpoint interleave (new s : string) : string :=
  match s with
  | EmptyString => new
  | String c s' => new +:+ String c (interleave new s')
  end.

Definition replace (s old new : string) : string :=
  match old with
  | EmptyString => interleave new s
  | String _ _ => replace_from old new 0 s
  end.

(** [urllib.parse.unquote] on a string whose escapes decode to ASCII: each
    [%xx] with two hexadecimal digits becomes the character of that code,
    any other [%] stays.  It instantiates the handler's [unquote] in the
    examples. *)
Definition hex_digit (c : ascii) : option nat :=
  let n := nat_of_ascii c in
  if (48 <=? n)%nat && (n <=? 57)%nat then Some (n - 48)
  else if (65 <=? n)%nat && (n <=? 70)%nat then Some (n - 55)
  else if (97 <=? n)%nat && (n <=? 102)%nat then Some (n - 87)
  else None.

Fixpoint percent_decode (s : string) : string :=
  match s with
  | EmptyString => EmptyString
  | String c s' =>
      if Ascii.eqb c "%"%char then
        match s' with
        | String a (String b rest) =>
            match hex_digit a, hex_digit b with
            | Some x, Some y => String (ascii_of_nat (16 * x + y)) (percent_decode rest)
            | _, _ => String c (percent_decode s')
            end
        | _ => String c (percent_decode s')
        end
      else String c (percent_decode s')
  end.

(** *** Exceptions

    The exceptions the handlers can meet, all subclasses of [Exception]:
    [KeyError] from [event[k]], [UnboundLocalError] from reading a local
    that was never assigned, and [Exception msg] for everything raised
    with a message (the storage client's errors, [raise Exception(...)]). *)
Inductive exn :=
| KeyError (key : string)
| UnboundLocalError (var : string)
| Exception (msg : string).

(** [str(e)]. *)
Definition str_exn (e : exn) : string :=
  match e with
  | KeyError key => "'" +:+ key +:+ "'"
  | UnboundLocalError var =>
      "cannot access local variable '" +:+ var
      +:+ "' where it is not associated with a value"
  | Exception msg => msg
  end.

(** *** Statements

    A statement runs on a state and either completes with a value or
    raises; the state reached is kept in both cases, as the [except]
    block sees the locals and the effects of the interrupted [try]
    body.  The frame holds the string locals that an [except] block
    reads; a local that is only read where it is certainly bound is a
    plain [let]. *)
Inductive outcome (A : Type) :=
| Ok (a : A)
| Raise (e : exn).
Arguments Ok {A} a.
Arguments Raise {A} e.

Record state (W : Type) := State { frame : gmap string string; outside : W }.
Arguments State {W} frame outside.
Arguments frame {W} s.
Arguments outside {W} s.

Definition M (W A : Type) : Type := state W -> outcome A * state W.

Definition ret {W A} (a : A) : M W A := fun s => (Ok a, s).

Definition bind {W A B} (m : M W A) (k : A -> M W B) : M W B :=
  fun s =>
    match m s with
    | (Ok a, s') => k a s'
    | (Raise e, s') => (Raise e, s')
    end.

Definition raise {W A} (e : exn) : M W A := fun s => (Raise e, s).

(** [try: body except Exception as e: handler(e)]. *)
Definition try_except {W A} (body : M W A) (handler : exn -> M W A) : M W A :=
  fun s =>
    match body s with
    | (Ok a, s') => (Ok a, s')
    | (Raise e, s') => handler e s'
    end.

(** [x = v] and the read of a local [x]. *)
Definition assign {W} (x v : string) : M W unit :=
  fun s => (Ok tt, State (<[x := v]> (frame s)) (outside s)).

Definition load {W} (x : string) : M W string :=
  fun s =>
    match frame s !! x with
    | Some v => (Ok v, s)
    | None => (Raise (UnboundLocalError x), s)
    end.

(** [d[k]] and [d.get(k, default)]. *)
Definition subscript {W} (d : gmap string string) (k : string) : M W string :=
  match d !! k with
  | Some v => ret v
  | None => raise (KeyError k)
  end.

Definition get (d : gmap string string) (k dflt : string) : string :=
  default dflt (d !! k).

Definition lift {W A} (f : W -> outcome A * W) : M W A :=
  fun s => let '(r, w) := f (outside s) in (r, State (frame s) w).

(** The value an outcome carries, if it is one. *)
Definition outcome_value {A} (o : outcome A) : option A :=
  match o with
  | Ok a => Some a
  | Raise _ => None
  end.

(** A call of the function: a fresh frame, the world threaded through. *)
Definition call {W A} (body : M W A) (w : W) : outcome A * W :=
  let '(r, s) := body (State ∅ w) in (r, outside s).

End Py.

Import Py.

Notation "'let*' x ':=' c 'in' k" := (bind c (fun x => k))
  (at level 10, x name, c at level 100, k at level 200).
Notation "'let*' ' p ':=' c 'in' k" := (bind c (fun p => k))
  (at level 10, p strict pattern, c at level 100, k at level 200).
Notation "c '>>' k" := (bind c (fun _ => k))
  (at level 100, k at level 200, right associativity).

(** ** The world outside the handlers *)

(** A stored object, as [put_object] writes it. *)
Record s3_object := S3Object {
  Body : string;
  ContentType : string;
  Metadata : gmap string string
}.

(** A call of the storage client. *)
Inductive s3_request :=
| ListObjectsV2 (Bucket Prefix : string)
| DownloadFile (Bucket Key Filename : string)
| PutObject (Bucket Key : string) (object : s3_object).

(** The world: the object store by (bucket, key), the calls made to the
    storage client, the local files by path with their size, and what was
    printed. *)
Record world := World {
  s3 : gmap (string * string) s3_object;
  s3_log : list s3_request;
  files : gmap string N;
  stdout : list string
}.

(** The storage service.  [list_objects_v2] answers with the keys of the
    [Contents] entry of its response ([None] when the response has no
    [Contents]); [download_file] with the number of bytes it wrote;
    [put_object] with the error it raises, if any. *)
Record s3_service := S3Service {
  s3_list_objects_v2 :
    gmap (string * string) s3_object -> string -> string -> exn + option (list string);
  s3_download_file :
    gmap (string * string) s3_object -> string -> string -> exn + N;
  s3_put_object :
    gmap (string * string) s3_object -> string -> string -> s3_object -> option exn
}.

Definition print (line : string) : M world unit :=
  lift (fun w => (Ok tt, World (s3 w) (s3_log w) (files w) (stdout w ++ [line]))).

Definition logged (r : s3_request) (w : world) : world :=
  World (s3 w) (s3_log w ++ [r]) (files w) (stdout w).

(** ** status-checker.py *)

Module StatusChecker.

(** The two dictionaries the handler returns. *)
Inductive response :=
| StatusResponse (jobId status outputLocation : string) (filesFound : list string)
| ErrorResponse (jobId status error outputLocation : string).

Section Handler.

Variable client : s3_service.

Definition list_objects_v2 (Bucket Prefix : string)
  : M world (option (list string)) :=
  lift (fun w =>
          let w' := logged (ListObjectsV2 Bucket Prefix) w in
          match s3_list_objects_v2 client (s3 w) Bucket Prefix with
          | inl e => (Raise e, w')
          | inr response => (Ok response, w')
          end).

(** Lines 28-43: the relative names and the status. *)
Definition classify (job_id job_output_prefix : string)
           (response : option (list string))
  : M world (list string * string) :=
  match response with
  | Some Contents =>
      let files_found :=
        map (fun Key => replace Key job_output_prefix EmptyString) Contents in
      let html_files := filter (fun f => endswith f ".html" = true) files_found in
      match html_files with
      | _ :: _ =>
          print ("Job " +:+ job_id +:+ " completed - found "
                 +:+ str_nat (length html_files) +:+ " HTML files") >>
          ret (files_found, "COMPLETED")
      | [] =>
          print ("Job " +:+ job_id +:+ " in progress - found "
                 +:+ str_nat (length files_found) +:+ " files but no HTML yet") >>
          ret (files_found, "IN_PROGRESS")
      end
  | None =>
      print ("Job " +:+ job_id +:+ " in progress - no output files found yet") >>
      ret ([], "IN_PROGRESS")
  end.

Definition lambda_handler (event : gmap string string) : M world response :=
  try_except
    (assign "job_id" (get event "jobId" "unknown") >>
     let* output_bucket := subscript event "outputS3Bucket" in
     assign "output_bucket" output_bucket >>
     assign "output_prefix" (get event "outputS3Prefix" "converted/") >>
     let* output_prefix := load "output_prefix" in
     let* job_id := load "job_id" in
     let job_output_prefix := output_prefix +:+ job_id +:+ "/" in
     print ("Checking status for job " +:+ job_id +:+ " in "
            +:+ output_bucket +:+ "/" +:+ job_output_prefix) >>
     let* response := list_objects_v2 output_bucket job_output_prefix in
     let* '(files_found, status) := classify job_id job_output_prefix response in
     ret (StatusResponse job_id status
            ("s3://" +:+ output_bucket +:+ "/" +:+ job_output_prefix)
            files_found))
    (fun e =>
       let error_message := str_exn e in
       let* job_id := load "job_id" in
       print ("Error checking status for job " +:+ job_id +:+ ": "
              +:+ error_message) >>
       let* jobId := load "job_id" in
       let* output_bucket := load "output_bucket" in
       let* output_prefix := load "output_prefix" in
       let* job_id := load "job_id" in
       ret (ErrorResponse jobId "FAILED" error_message
              ("s3://" +:+ output_bucket +:+ "/" +:+ output_prefix
               +:+ job_id +:+ "/"))).

End Handler.

(** The value of the local [job_output_prefix] (line 15) for a request. *)
Definition job_output_prefix (event : gmap string string) : string :=
  get event "outputS3Prefix" "converted/" +:+ get event "jobId" "unknown" +:+ "/".

(** The objects of a listing response: those under [Contents], none when
    the response has no [Contents]. *)
Definition listed (response : option (list string)) : list string :=
  default [] response.

End StatusChecker.


(** ** processor.py *)

Module Processor.

(** The Lambda context object, of which the handler reads the request id. *)
Record context := Context { aws_request_id : string }.

(** [{pdf_size:,}]: decimal digits in groups of three. *)
Fixpoint commas (rev_digits : list ascii) (i : nat) : list ascii :=
  match rev_digits with
  | [] => []
  | c :: l =>
      match i with
      | 3 => ","%char :: c :: commas l 1
      | _ => c :: commas l (S i)
      end
  end.

Definition format_thousands (n : N) : string :=
  string_of_list_ascii
    (rev (commas (rev (list_ascii_of_string (str_N n))) 0)).

Definition dq : string := String (ascii_of_nat 34) EmptyString.
Definition nl : string := String (ascii_of_nat 10) EmptyString.

(** The lines of a triple-quoted literal, joined by newlines. *)
Fixpoint unlines (ls : list string) : string :=
  match ls with
  | [] => EmptyString
  | [l] => l
  | l :: ls' => l +:+ nl +:+ unlines ls'
  end.

Record conversion_result := ConversionResult {
  html_path : string;
  output_files : list string;
  pdf_pages : nat;
  images_extracted : nat;
  processing_time_seconds : QArith_base.Q
}.

(** The two dictionaries the handler returns. *)
Inductive response :=
| Completed (jobId status outputLocation : string)
            (conversionResult : conversion_result) (inputLocation : string)
| Failed (jobId status error inputLocation : string).

Definition status_of (r : response) : string :=
  match r with
  | Completed _ st _ _ _ => st
  | Failed _ st _ _ => st
  end.

Section Handler.

(** The collaborators: the storage client; [urllib.parse.unquote]; the
    options mapping with [{}] and [json.dumps(_, indent=2)]; the name
    [NamedTemporaryFile] picks; the error [os.unlink] meets, if any. *)
Variable client : s3_service.
Variable unquote : string -> string.
Variable options : Type.
Variable empty_dict : options.
Variable json_dumps_indent2 : options -> string.
Variable temp_name : gmap string N -> string -> string.
Variable unlink_error : gmap string N -> string -> option exn.

(** The request: its string-valued fields and the options mapping. *)
Record event := Event {
  fields : gmap string string;
  conversionOptions : option options
}.

(** [NamedTemporaryFile(suffix=..., delete=False)]: an empty file under a
    new name, which stays on disk when the [with] block closes it. *)
Definition NamedTemporaryFile (suffix : string) : M world string :=
  lift (fun w =>
          let name := temp_name (files w) suffix in
          (Ok name, World (s3 w) (s3_log w) (<[name := 0%N]> (files w)) (stdout w))).

Definition download_file (Bucket Key Filename : string) : M world unit :=
  lift (fun w =>
          let w' := logged (DownloadFile Bucket Key Filename) w in
          match s3_download_file client (s3 w) Bucket Key with
          | inl e => (Raise e, w')
          | inr size =>
              (Ok tt, World (s3 w') (s3_log w') (<[Filename := size]> (files w'))
                            (stdout w'))
          end).

Definition no_such_file (path : string) : exn :=
  Exception ("[Errno 2] No such file or directory: '" +:+ path +:+ "'").

(** [os.path.getsize]. *)
Definition getsize (path : string) : M world N :=
  lift (fun w =>
          match files w !! path with
          | Some size => (Ok size, w)
          | None => (Raise (no_such_file path), w)
          end).

Definition put_object (Bucket Key : string) (object : s3_object) : M world unit :=
  lift (fun w =>
          let w' := logged (PutObject Bucket Key object) w in
          match s3_put_object client (s3 w) Bucket Key object with
          | Some e => (Raise e, w')
          | None =>
              (Ok tt, World (<[(Bucket, Key) := object]> (s3 w')) (s3_log w')
                            (files w') (stdout w'))
          end).

(** [os.unlink]. *)
Definition unlink (path : string) : M world unit :=
  lift (fun w =>
          match files w !! path with
          | None => (Raise (no_such_file path), w)
          | Some _ =>
              match unlink_error (files w) path with
              | Some e => (Raise e, w)
              | None =>
                  (Ok tt, World (s3 w) (s3_log w) (delete path (files w)) (stdout w))
              end
          end).

Definition create_html_content (job_id input_key input_bucket : string)
           (pdf_size : N) (conversion_options : options) (request_id : string)
  : string :=
  unlines
    [ "<!DOCTYPE html>";
      "<html lang=" +:+ dq +:+ "en" +:+ dq +:+ ">";
      "<head>";
      "    <meta charset=" +:+ dq +:+ "UTF-8" +:+ dq +:+ ">";
      "    <meta name=" +:+ dq +:+ "viewport" +:+ dq +:+ " content=" +:+ dq
        +:+ "width=device-width, initial-scale=1.0" +:+ dq +:+ ">";
      "    <title>Converted PDF Document</title>";
      "    <style>";
      "        body { font-family: Arial, sans-serif; max-width: 800px; margin: 0 auto; padding: 20px; line-height: 1.6; }";
      "        .conversion-info { background-color: #f0f8ff; border: 1px solid #0066cc; border-radius: 5px; padding: 15px; margin-bottom: 20px; }";
      "        .metadata { background-color: #f9f9f9; border-left: 4px solid #ccc; padding: 10px 15px; margin: 10px 0; }";
      "    </style>";
      "</head>";
      "<body>";
      "    <div class=" +:+ dq +:+ "conversion-info" +:+ dq +:+ ">";
      "        <h1>PDF to HTML Conversion Result</h1>";
      "        <p><strong>Job ID:</strong> " +:+ job_id +:+ "</p>";
      "        <p><strong>Original File:</strong> " +:+ input_key +:+ "</p>";
      "        <p><strong>Request ID:</strong> " +:+ request_id +:+ "</p>";
      "    </div>";
      "    ";
      "    <div class=" +:+ dq +:+ "metadata" +:+ dq +:+ ">";
      "        <h2>Document Metadata</h2>";
      "        <ul>";
      "            <li><strong>Source:</strong> s3://" +:+ input_bucket +:+ "/"
        +:+ input_key +:+ "</li>";
      "            <li><strong>File Size:</strong> " +:+ format_thousands pdf_size
        +:+ " bytes</li>";
      "            <li><strong>Processing Options:</strong> "
        +:+ json_dumps_indent2 conversion_options +:+ "</li>";
      "        </ul>";
      "    </div>";
      "    ";
      "    <div class=" +:+ dq +:+ "content" +:+ dq +:+ ">";
      "        <h2>Document Content</h2>";
      "        <p><em>This is a Step Function workflow demonstration. The actual implementation would integrate with the content accessibility utility's PDF to HTML conversion capabilities.</em></p>";
      "        ";
      "        <p>In a full implementation, this would:</p>";
      "        <ul>";
      "            <li>Use AWS Bedrock Data Automation (BDA) for PDF parsing</li>";
      "            <li>Extract text, images, and structure from the PDF</li>";
      "            <li>Generate accessible HTML with proper semantic markup</li>";
      "            <li>Include extracted images with appropriate alt text</li>";
      "            <li>Preserve document layout and formatting</li>";
      "        </ul>";
      "    </div>";
      "</body>";
      "</html>" ].

Definition lambda_handler (event : event) (context : context) : M world response :=
  try_except
    (assign "job_id"
            (get (fields event) "jobId" ("job-" +:+ aws_request_id context)) >>
     let* input_bucket := subscript (fields event) "inputS3Bucket" in
     let* inputS3Key := subscript (fields event) "inputS3Key" in
     let input_key := unquote inputS3Key in
     let* output_bucket := subscript (fields event) "outputS3Bucket" in
     let output_prefix := get (fields event) "outputS3Prefix" "converted/" in
     let conversion_options := default empty_dict (conversionOptions event) in
     let* job_id := load "job_id" in
     print ("Processing job " +:+ job_id +:+ ": Converting "
            +:+ input_bucket +:+ "/" +:+ input_key) >>
     let* temp_pdf := NamedTemporaryFile ".pdf" in
     let* pdf_size :=
       try_except
         (download_file input_bucket input_key temp_pdf >>
          let* pdf_size := getsize temp_pdf in
          print ("Downloaded PDF file: " +:+ str_N pdf_size +:+ " bytes") >>
          ret pdf_size)
         (fun e => raise (Exception ("Failed to download PDF: " +:+ str_exn e))) in
     let html_content :=
       create_html_content job_id input_key input_bucket pdf_size
                           conversion_options (aws_request_id context) in
     let output_key := output_prefix +:+ job_id +:+ "/converted.html" in
     put_object output_bucket output_key
       (S3Object html_content "text/html"
          {[ "job-id" := job_id;
             "source-bucket" := input_bucket;
             "source-key" := input_key;
             "conversion-timestamp" := aws_request_id context ]}) >>
     let conversion_result :=
       ConversionResult ("s3://" +:+ output_bucket +:+ "/" +:+ output_key)
                        [output_key] 1 0 (QArith_base.Qmake 1 1) in
     let output_location :=
       "s3://" +:+ output_bucket +:+ "/" +:+ output_prefix +:+ job_id +:+ "/" in
     try_except (unlink temp_pdf) (fun _ => ret tt) >>
     let response :=
       Completed job_id "COMPLETED" output_location conversion_result
                 ("s3://" +:+ input_bucket +:+ "/" +:+ input_key) in
     print ("Job " +:+ job_id +:+ " completed successfully") >>
     ret response)
    (fun e =>
       let error_message := str_exn e in
       let* job_id := load "job_id" in
       print ("Job " +:+ job_id +:+ " failed: " +:+ error_message) >>
       let* jobId := load "job_id" in
       ret (Failed jobId "FAILED" error_message
              ("s3://" +:+ get (fields event) "inputS3Bucket" EmptyString +:+ "/"
               +:+ get (fields event) "inputS3Key" EmptyString))).

(** The values of the locals [job_id], [output_prefix], [output_key] and
    [output_location], and the object handed to [put_object], for a
    request. *)
Definition job_id_of (event : event) (context : context) : string :=
  get (fields event) "jobId" ("job-" +:+ aws_request_id context).

Definition output_prefix_of (event : event) : string :=
  get (fields event) "outputS3Prefix" "converted/".

Definition output_key_of (event : event) (context : context) : string :=
  output_prefix_of event +:+ job_id_of event context +:+ "/converted.html".

Definition output_location_of (event : event) (context : context)
           (output_bucket : string) : string :=
  "s3://" +:+ output_bucket +:+ "/" +:+ output_prefix_of event
  +:+ job_id_of event context +:+ "/".

Definition output_object (event : event) (context : context)
           (input_bucket input_key : string) (pdf_size : N) : s3_object :=
  S3Object
    (create_html_content (job_id_of event context) input_key input_bucket pdf_size
       (default empty_dict (conversionOptions event)) (aws_request_id context))
    "text/html"
    {[ "job-id" := job_id_of event context;
       "source-bucket" := input_bucket;
       "source-key" := input_key;
       "conversion-timestamp" := aws_request_id context ]}.

End Handler.

Arguments Event {options} fields conversionOptions.
Arguments fields {options} e.
Arguments conversionOptions {options} e.
Arguments lambda_handler client unquote {options} empty_dict json_dumps_indent2
  temp_name unlink_error event context.
Arguments job_id_of {options} event context.
Arguments output_prefix_of {options} event.
Arguments output_key_of {options} event context.
Arguments output_location_of {options} event context output_bucket.
Arguments output_object {options} empty_dict json_dumps_indent2 event context
  input_bucket input_key pdf_size.
Arguments create_html_content {options} json_dumps_indent2 job_id input_key
  input_bucket pdf_size conversion_options request_id.

End Processor.

(** ** Vocabulary of the statements *)

(** The relative name as the specification words it: the key with its one
    leading occurrence of the prefix removed and the rest kept as it is.
    It is what the handler's [replace] is compared with, not a part of
    the handler. *)
Definition strip_leading_prefix (prefix key : string) : string :=
  if String.prefix prefix key
  then String.substring (String.length prefix)
                        (String.length key - String.length prefix) key
  else key.

(** [sub in s]: [sub] occurs somewhere in [s]. *)
Fixpoint occurs (sub s : string) : bool :=
  String.prefix sub s
  || match s with
     | EmptyString => false
     | String _ s' => occurs sub s'
     end.

(** The first required field a conversion request lacks, in the order the
    handler reads them (lines 14 to 16). *)
Definition first_missing {options} (event : Processor.event options) : option string :=
  match Processor.fields event !! "inputS3Bucket" with
  | None => Some "inputS3Bucket"
  | Some _ =>
      match Processor.fields event !! "inputS3Key" with
      | None => Some "inputS3Key"
      | Some _ =>
          match Processor.fields event !! "outputS3Bucket" with
          | None => Some "outputS3Bucket"
          | Some _ => None
          end
      end
  end.

(** Storage services that answer the same whatever they are asked, and a
    world with nothing in it, for the examples. *)
Definition constant_service (listing : exn + option (list string))
           (download : exn + N) (upload : option exn) : s3_service :=
  S3Service (fun _ _ _ => listing) (fun _ _ _ => download) (fun _ _ _ _ => upload).

Definition listing_service (listing : exn + option (list string)) : s3_service :=
  constant_service listing (inr 0%N) None.

Definition empty_world : world := World ∅ [] ∅ [].

Definition not_found : exn :=
  Exception "An error occurred (404) when calling the HeadObject operation: Not Found".

(** The requests of the examples: a status request for job [job1], and a
    conversion request whose key is percent-encoded, run with a request
    id, a temporary name and an [os.unlink] that succeeds. *)
Definition job1_status : gmap string string :=
  {[ "jobId" := "job1"; "outputS3Bucket" := "out" ]}.

Definition job1_conversion : Processor.event unit :=
  Processor.Event
    {[ "jobId" := "job1"; "inputS3Bucket" := "in"; "inputS3Key" := "a%20b.pdf";
       "outputS3Bucket" := "out" ]}
    None.

Definition no_input_bucket : Processor.event unit :=
  Processor.Event
    {[ "jobId" := "job1"; "inputS3Key" := "a%20b.pdf"; "outputS3Bucket" := "out" ]}
    None.

Definition no_output_bucket : Processor.event unit :=
  Processor.Event
    {[ "jobId" := "job1"; "inputS3Bucket" := "in"; "inputS3Key" := "a%20b.pdf" ]}
    None.

Definition no_job_id : Processor.event unit :=
  Processor.Event
    {[ "inputS3Bucket" := "in"; "inputS3Key" := "a%20b.pdf";
       "outputS3Bucket" := "out" ]}
    None.

Definition request_1 : Processor.context := Processor.Context "req-1".

Definition tmp_q3x9 (existing : gmap string N) (suffix : string) : string :=
  "/tmp/tmpq3x9" +:+ suffix.

Definition convert (client : s3_service) (event : Processor.event unit)
  : M world Processor.response :=
  Processor.lambda_handler client percent_decode tt (fun _ => "{}") tmp_q3x9
                           (fun _ _ => None) event request_1.

(** ** Facts about the Python string operations *)

Lemma replace_from_skip old new s k :
  (String.length s <= k)%nat -> replace_from old new k s = EmptyString.
Proof.
  revert k. induction s as [|c s IH]; intros k Hk; simpl in *; [done|].
  destruct k as [|k]; [lia|]. apply IH. lia.
Qed.

Lemma prefix_refl s : String.prefix s s = true.
Proof.
  induction s as [|c s IH]; simpl; [done|].
  destruct (ascii_dec c c); [done | congruence].
Qed.

Lemma replace_self p : p <> EmptyString -> replace p p EmptyString = EmptyString.
Proof.
  destruct p as [|c p]; [congruence | intros _].
  unfold replace. cbn [replace_from]. rewrite prefix_refl.
  cbn [String.append]. apply replace_from_skip. simpl. lia.
Qed.

Lemma append_nonempty_r s t : t <> EmptyString -> s +:+ t <> EmptyString.
Proof. destruct s; simpl; [done | discriminate]. Qed.

Lemma append_inj_l s a b : s +:+ a = s +:+ b -> a = b.
Proof. induction s as [|c s IH]; simpl; [done|]. intros [= H]. auto. Qed.

(** Reading a local of a frame built by assignments. *)
Ltac frame_lookup :=
  repeat (first [ rewrite lookup_insert_eq
                | rewrite lookup_insert_ne by discriminate
                | rewrite lookup_empty ]; cbn).

(** ** The status handler, path by path *)

Section StatusPaths.

Import StatusChecker.

Variable client : s3_service.
Variable event : gmap string string.

Ltac run_handler :=
  unfold call, lambda_handler, classify, list_objects_v2, try_except, bind,
    assign, subscript, load, print, lift, raise, ret, logged; cbn.

(** Without [outputS3Bucket] the [except] block reads the local
    [output_bucket], which line 11 never bound. *)
Lemma handler_missing_bucket w :
  event !! "outputS3Bucket" = None ->
  (call (lambda_handler client event) w).1 = Raise (UnboundLocalError "output_bucket")
  /\ s3 (call (lambda_handler client event) w).2 = s3 w
  /\ s3_log (call (lambda_handler client event) w).2 = s3_log w.
Proof.
  intros H. run_handler. rewrite H. cbn. frame_lookup. done.
Qed.

(** A listing that raises is reported as FAILED. *)
Lemma handler_listing_error w bucket e :
  event !! "outputS3Bucket" = Some bucket ->
  s3_list_objects_v2 client (s3 w) bucket (job_output_prefix event) = inl e ->
  (call (lambda_handler client event) w).1
  = Ok (ErrorResponse (get event "jobId" "unknown") "FAILED" (str_exn e)
          ("s3://" +:+ bucket +:+ "/" +:+ job_output_prefix event))
  /\ s3 (call (lambda_handler client event) w).2 = s3 w
  /\ s3_log (call (lambda_handler client event) w).2
     = (s3_log w ++ [ListObjectsV2 bucket (job_output_prefix event)])%list.
Proof.
  intros H He. unfold job_output_prefix in *. run_handler. rewrite H. cbn.
  frame_lookup. rewrite He. cbn. frame_lookup. done.
Qed.

(** A listing that answers is classified. *)
Lemma handler_listing_ok w bucket response :
  event !! "outputS3Bucket" = Some bucket ->
  s3_list_objects_v2 client (s3 w) bucket (job_output_prefix event) = inr response ->
  let files_found :=
    map (fun Key => replace Key (job_output_prefix event) EmptyString)
        (listed response) in
  (call (lambda_handler client event) w).1
  = Ok (StatusResponse (get event "jobId" "unknown")
          (match filter (fun f => endswith f ".html" = true) files_found with
           | [] => "IN_PROGRESS"
           | _ :: _ => "COMPLETED"
           end)
          ("s3://" +:+ bucket +:+ "/" +:+ job_output_prefix event)
          files_found)
  /\ s3 (call (lambda_handler client event) w).2 = s3 w
  /\ s3_log (call (lambda_handler client event) w).2
     = (s3_log w ++ [ListObjectsV2 bucket (job_output_prefix event)])%list.
Proof.
  intros H He. unfold job_output_prefix in *. run_handler. rewrite H. cbn.
  frame_lookup. rewrite He. destruct response as [Contents|]; cbn.
  - destruct (filter _ _) eqn:Hf; cbn; done.
  - done.
Qed.

(** The result is a function of the request and of the store alone. *)
Lemma handler_result_of_store w w' :
  s3 w = s3 w' ->
  (call (lambda_handler client event) w).1 = (call (lambda_handler client event) w').1.
Proof.
  intros Hs. destruct (event !! "outputS3Bucket") as [bucket|] eqn:Hb.
  - destruct (s3_list_objects_v2 client (s3 w) bucket (job_output_prefix event))
      as [e|response] eqn:Hl.
    + destruct (handler_listing_error w bucket e Hb Hl) as [-> _].
      rewrite Hs in Hl.
      destruct (handler_listing_error w' bucket e Hb Hl) as [-> _]. done.
    + destruct (handler_listing_ok w bucket response Hb Hl) as [-> _].
      rewrite Hs in Hl.
      destruct (handler_listing_ok w' bucket response Hb Hl) as [-> _]. done.
  - destruct (handler_missing_bucket w Hb) as [-> _].
    destruct (handler_missing_bucket w' Hb) as [-> _]. done.
Qed.

(** The store is left as it was, and the only calls are listings. *)
Lemma handler_read_only w :
  s3 (call (lambda_handler client event) w).2 = s3 w
  /\ exists added,
      s3_log (call (lambda_handler client event) w).2 = (s3_log w ++ added)%list
      /\ Forall (fun r => exists Bucket Prefix, r = ListObjectsV2 Bucket Prefix) added.
Proof.
  destruct (event !! "outputS3Bucket") as [bucket|] eqn:Hb.
  - destruct (s3_list_objects_v2 client (s3 w) bucket (job_output_prefix event))
      as [e|response] eqn:Hl.
    + destruct (handler_listing_error w bucket e Hb Hl) as (_ & -> & ->).
      split; [done|]. eexists; split; [done|]. repeat constructor. eauto.
    + destruct (handler_listing_ok w bucket response Hb Hl) as (_ & -> & ->).
      split; [done|]. eexists; split; [done|]. repeat constructor. eauto.
  - destruct (handler_missing_bucket w Hb) as (_ & -> & ->).
    split; [done|]. exists []. rewrite app_nil_r. split; [done | constructor].
Qed.

End StatusPaths.

(** ** The status handler: the claims *)

Section StatusClaims.

Import StatusChecker.

Variable client : s3_service.
Variable event : gmap string string.
Variable w : world.

(** C1 (refuted on the code).  A request without [outputS3Bucket] does not
    get a FAILED response: the [KeyError] of line 11 is caught, but the
    [except] block then reads the local [output_bucket], which was never
    bound, and the handler ends by raising [UnboundLocalError]. *)
Theorem status_handler_raises_without_bucket :
  event !! "outputS3Bucket" = None ->
  (call (lambda_handler client event) w).1 = Raise (UnboundLocalError "output_bucket").
Proof. intros H. apply handler_missing_bucket, H. Qed.

(** The status as a function of the entries of [filesFound], the names
    the handler computes with [replace]: no object, IN_PROGRESS; objects
    but no entry ending in [.html], IN_PROGRESS; an entry ending in
    [.html], COMPLETED; and [filesFound] is empty exactly when no object
    was listed. *)
Theorem status_three_way_classification bucket response :
  event !! "outputS3Bucket" = Some bucket ->
  s3_list_objects_v2 client (s3 w) bucket (job_output_prefix event) = inr response ->
  exists status files_found,
    (call (lambda_handler client event) w).1
    = Ok (StatusResponse (get event "jobId" "unknown") status
            ("s3://" +:+ bucket +:+ "/" +:+ job_output_prefix event) files_found)
    /\ files_found
       = map (fun Key => replace Key (job_output_prefix event) EmptyString)
             (listed response)
    /\ (listed response = [] -> status = "IN_PROGRESS")
    /\ (listed response <> [] ->
        (forall f, f ∈ files_found -> endswith f ".html" = false) ->
        status = "IN_PROGRESS")
    /\ ((exists f, f ∈ files_found /\ endswith f ".html" = true) ->
        status = "COMPLETED")
    /\ (files_found = [] <-> listed response = []).
Proof.
  intros Hb Hl. destruct (handler_listing_ok client event w bucket response Hb Hl)
    as [Hr _].
  eexists _, _. split; [exact Hr|]. split; [reflexivity|].
  set (files_found := map _ (listed response)).
  assert (Hempty : files_found = [] <-> listed response = []).
  { subst files_found. destruct (listed response); simpl; split; congruence. }
  destruct (filter (fun f => endswith f ".html" = true) files_found) as [|h html_files]
    eqn:Hf.
  - repeat split; try tauto.
    intros (f & Hin & Hhtml).
    assert (Hmem : f ∈ filter (fun f => endswith f ".html" = true) files_found)
      by (apply list_elem_of_filter; done).
    rewrite Hf in Hmem. by apply not_elem_of_nil in Hmem.
  - assert (Hh : h ∈ filter (fun f => endswith f ".html" = true) files_found)
      by (rewrite Hf; left).
    apply list_elem_of_filter in Hh as [Hhtml Hin].
    repeat split; try tauto.
    + intros Hnone. apply Hempty in Hnone. rewrite Hnone in Hin.
      by apply not_elem_of_nil in Hin.
    + intros _ Hall. rewrite (Hall h Hin) in Hhtml. discriminate.
Qed.

(** C8.  Two invocations in a row, the second in the world the first one
    left, give the same result; neither changes the object store, and the
    only calls made to the storage client are listings. *)
Theorem status_handler_idempotent_read_only :
  let first := call (lambda_handler client event) w in
  let second := call (lambda_handler client event) first.2 in
  second.1 = first.1
  /\ s3 first.2 = s3 w
  /\ s3 second.2 = s3 w
  /\ exists added,
      s3_log second.2 = (s3_log w ++ added)%list
      /\ Forall (fun r => exists Bucket Prefix, r = ListObjectsV2 Bucket Prefix) added.
Proof.
  cbn zeta.
  destruct (handler_read_only client event w) as (Hs1 & a1 & Hl1 & Ha1).
  destruct (handler_read_only client event (call (lambda_handler client event) w).2)
    as (Hs2 & a2 & Hl2 & Ha2).
  split; [apply handler_result_of_store; done|].
  split; [done|]. split; [congruence|].
  exists (a1 ++ a2)%list. split.
  - rewrite Hl2, Hl1. by rewrite <- app_assoc.
  - by apply Forall_app.
Qed.

(** C10.  A listed key equal to the job prefix itself (a folder marker)
    gives the empty string as an entry of [filesFound]; when the markers
    are all that is listed the status is IN_PROGRESS, with a [filesFound]
    that is not empty. *)
Theorem folder_marker_is_empty_name bucket Contents :
  event !! "outputS3Bucket" = Some bucket ->
  s3_list_objects_v2 client (s3 w) bucket (job_output_prefix event)
  = inr (Some Contents) ->
  job_output_prefix event ∈ Contents ->
  exists status files_found,
    (call (lambda_handler client event) w).1
    = Ok (StatusResponse (get event "jobId" "unknown") status
            ("s3://" +:+ bucket +:+ "/" +:+ job_output_prefix event) files_found)
    /\ EmptyString ∈ files_found
    /\ endswith EmptyString ".html" = false
    /\ (Forall (fun Key => Key = job_output_prefix event) Contents ->
        status = "IN_PROGRESS" /\ files_found <> []
        /\ Forall (fun f => f = EmptyString) files_found).
Proof.
  intros Hb Hl Hin.
  destruct (handler_listing_ok client event w bucket (Some Contents) Hb Hl) as [Hr _].
  change (listed (Some Contents)) with Contents in Hr.
  eexists _, _. split; [exact Hr|].
  assert (Hself : replace (job_output_prefix event) (job_output_prefix event)
                          EmptyString = EmptyString).
  { apply replace_self. unfold job_output_prefix.
    by do 2 apply append_nonempty_r. }
  assert (Hmarker : EmptyString
            ∈ map (fun Key => replace Key (job_output_prefix event) EmptyString)
                  Contents).
  { apply list_elem_of_In, in_map_iff. exists (job_output_prefix event).
    split; [exact Hself | by apply list_elem_of_In]. }
  split; [exact Hmarker|]. split; [reflexivity|].
  intros Hall.
  assert (Hnames : Forall (fun f => f = EmptyString)
            (map (fun Key => replace Key (job_output_prefix event) EmptyString)
                 Contents)).
  { clear -Hall Hself. induction Hall as [|k l -> _ IH]; simpl; constructor; done. }
  split; [|split; [|exact Hnames]].
  - destruct (filter _ _) as [|h t] eqn:Hf; [done|].
    assert (Hh : h ∈ filter (fun f => endswith f ".html" = true)
              (map (fun Key => replace Key (job_output_prefix event) EmptyString)
                   Contents)) by (rewrite Hf; left).
    apply list_elem_of_filter in Hh as [Hhtml Hh].
    rewrite Forall_forall in Hnames. rewrite (Hnames h Hh) in Hhtml. discriminate.
  - intros Hnil. rewrite Hnil in Hmarker. by apply not_elem_of_nil in Hmarker.
Qed.

End StatusClaims.

(** ** The conversion handler, path by path *)

Section ProcessorPaths.

Import Processor.

Variable client : s3_service.
Variable unquote : string -> string.
Variable options : Type.
Variable empty_dict : options.
Variable json_dumps_indent2 : options -> string.
Variable temp_name : gmap string N -> string -> string.
Variable unlink_error : gmap string N -> string -> option exn.
Variable event : event options.
Variable context : context.
Variable w : world.

Abbreviation handler :=
  (lambda_handler client unquote empty_dict json_dumps_indent2 temp_name
                  unlink_error event context).
Abbreviation temp_pdf := (temp_name (files w) ".pdf").
Abbreviation failure_location :=
  ("s3://" +:+ get (fields event) "inputS3Bucket" EmptyString +:+ "/"
   +:+ get (fields event) "inputS3Key" EmptyString).

Arguments create_html_content : simpl never.

Ltac run_handler :=
  unfold output_object, output_key_of, output_location_of, output_prefix_of,
    job_id_of in *;
  unfold call, lambda_handler, NamedTemporaryFile, download_file, getsize,
    put_object, unlink, try_except, bind, assign, subscript, load, print, lift,
    raise, ret, logged;
  cbn.

(** A required field is missing: nothing was touched. *)
Lemma handler_missing_field :
  fields event !! "inputS3Bucket" = None
  \/ fields event !! "inputS3Key" = None
  \/ fields event !! "outputS3Bucket" = None ->
  exists key,
    (call handler w).1
    = Ok (Failed (job_id_of event context) "FAILED" (str_exn (KeyError key))
            failure_location)
    /\ (fields event !! "inputS3Bucket" = None -> key = "inputS3Bucket")
    /\ s3 (call handler w).2 = s3 w
    /\ s3_log (call handler w).2 = s3_log w
    /\ files (call handler w).2 = files w.
Proof.
  intros H. run_handler.
  destruct (fields event !! "inputS3Bucket") as [ib|] eqn:Hib; cbn; frame_lookup.
  2:{ eexists; repeat split; done. }
  destruct (fields event !! "inputS3Key") as [raw|] eqn:Hraw; cbn; frame_lookup.
  2:{ eexists; repeat split; done. }
  destruct (fields event !! "outputS3Bucket") as [ob|] eqn:Hob; cbn; frame_lookup.
  2:{ eexists; repeat split; done. }
  destruct H as [H|[H|H]]; discriminate.
Qed.

Section AllFields.

Variables input_bucket inputS3Key output_bucket : string.
Hypothesis Hib : fields event !! "inputS3Bucket" = Some input_bucket.
Hypothesis Hkey : fields event !! "inputS3Key" = Some inputS3Key.
Hypothesis Hob : fields event !! "outputS3Bucket" = Some output_bucket.

Abbreviation input_key := (unquote inputS3Key).
Abbreviation output_key := (output_key_of event context).
Abbreviation download := (DownloadFile input_bucket input_key temp_pdf).
Abbreviation object pdf_size :=
  (output_object empty_dict json_dumps_indent2 event context input_bucket input_key
                 pdf_size).

(** The download raises: the error is wrapped and reported, and the empty
    temporary file stays on disk. *)
Lemma handler_download_error e :
  s3_download_file client (s3 w) input_bucket input_key = inl e ->
  (call handler w).1
  = Ok (Failed (job_id_of event context) "FAILED"
          ("Failed to download PDF: " +:+ str_exn e) failure_location)
  /\ s3 (call handler w).2 = s3 w
  /\ s3_log (call handler w).2 = (s3_log w ++ [download])%list
  /\ files (call handler w).2 = <[temp_pdf := 0%N]> (files w).
Proof.
  intros Hd. run_handler. rewrite Hib, Hkey, Hob. cbn. frame_lookup.
  rewrite Hd. cbn. frame_lookup. done.
Qed.

(** The upload raises: the error is reported, and the downloaded file
    stays on disk. *)
Lemma handler_upload_error pdf_size e :
  s3_download_file client (s3 w) input_bucket input_key = inr pdf_size ->
  s3_put_object client (s3 w) output_bucket output_key (object pdf_size) = Some e ->
  (call handler w).1
  = Ok (Failed (job_id_of event context) "FAILED" (str_exn e) failure_location)
  /\ s3 (call handler w).2 = s3 w
  /\ s3_log (call handler w).2
     = (s3_log w ++ [download; PutObject output_bucket output_key (object pdf_size)])%list
  /\ files (call handler w).2 = <[temp_pdf := pdf_size]> (<[temp_pdf := 0%N]> (files w)).
Proof.
  intros Hd Hp. run_handler. rewrite Hib, Hkey, Hob. cbn. frame_lookup.
  rewrite Hd. cbn. frame_lookup. rewrite Hp. cbn. frame_lookup.
  rewrite <- app_assoc. done.
Qed.

(** Download and upload succeed. *)
Lemma handler_success pdf_size :
  s3_download_file client (s3 w) input_bucket input_key = inr pdf_size ->
  s3_put_object client (s3 w) output_bucket output_key (object pdf_size) = None ->
  let staged := <[temp_pdf := pdf_size]> (<[temp_pdf := 0%N]> (files w)) in
  (call handler w).1
  = Ok (Completed (job_id_of event context) "COMPLETED"
          (output_location_of event context output_bucket)
          (ConversionResult ("s3://" +:+ output_bucket +:+ "/" +:+ output_key)
                            [output_key] 1 0 (QArith_base.Qmake 1 1))
          ("s3://" +:+ input_bucket +:+ "/" +:+ input_key))
  /\ s3 (call handler w).2 = <[(output_bucket, output_key) := object pdf_size]> (s3 w)
  /\ s3_log (call handler w).2
     = (s3_log w ++ [download; PutObject output_bucket output_key (object pdf_size)])%list
  /\ files (call handler w).2
     = match unlink_error staged temp_pdf with
       | None => delete temp_pdf staged
       | Some _ => staged
       end.
Proof.
  intros Hd Hp. run_handler. rewrite Hib, Hkey, Hob. cbn. frame_lookup.
  rewrite Hd. cbn. frame_lookup. rewrite Hp. cbn. frame_lookup.
  destruct (unlink_error _ _); cbn; frame_lookup; rewrite <- app_assoc; done.
Qed.

End AllFields.

(** Every invocation returns: a FAILED response whose location is built
    from the request as it came, or the COMPLETED one. *)
Lemma handler_outcome :
  (exists error,
      (call handler w).1
      = Ok (Failed (job_id_of event context) "FAILED" error failure_location))
  \/ (exists input_bucket inputS3Key output_bucket,
         fields event !! "inputS3Bucket" = Some input_bucket
         /\ fields event !! "inputS3Key" = Some inputS3Key
         /\ fields event !! "outputS3Bucket" = Some output_bucket
         /\ (call handler w).1
            = Ok (Completed (job_id_of event context) "COMPLETED"
                    (output_location_of event context output_bucket)
                    (ConversionResult
                       ("s3://" +:+ output_bucket +:+ "/" +:+ output_key_of event context)
                       [output_key_of event context] 1 0 (QArith_base.Qmake 1 1))
                    ("s3://" +:+ input_bucket +:+ "/" +:+ unquote inputS3Key))).
Proof.
  destruct (fields event !! "inputS3Bucket") as [ib|] eqn:Hib;
    [|left; destruct handler_missing_field as (k & -> & _); eauto].
  destruct (fields event !! "inputS3Key") as [raw|] eqn:Hkey;
    [|left; destruct handler_missing_field as (k & -> & _); eauto].
  destruct (fields event !! "outputS3Bucket") as [ob|] eqn:Hob;
    [|left; destruct handler_missing_field as (k & -> & _); eauto].
  destruct (s3_download_file client (s3 w) ib (unquote raw)) as [e|pdf_size] eqn:Hd.
  { left. destruct (handler_download_error ib raw ob Hib Hkey Hob e Hd) as [-> _].
    eauto. }
  destruct (s3_put_object client (s3 w) ob (output_key_of event context)
              (output_object empty_dict json_dumps_indent2 event context ib
                 (unquote raw) pdf_size)) as [e|] eqn:Hp.
  { left. destruct (handler_upload_error ib raw ob Hib Hkey Hob pdf_size e Hd Hp)
      as [-> _]. eauto. }
  right. destruct (handler_success ib raw ob Hib Hkey Hob pdf_size Hd Hp) as [-> _].
  exists ib, raw, ob. done.
Qed.

(** The calls an invocation makes to the storage client: none, the
    download, or the download and then the upload. *)
Lemma handler_storage_calls :
  s3_log (call handler w).2 = s3_log w
  \/ exists input_bucket inputS3Key,
       fields event !! "inputS3Bucket" = Some input_bucket
       /\ fields event !! "inputS3Key" = Some inputS3Key
       /\ (s3_log (call handler w).2
           = (s3_log w ++ [DownloadFile input_bucket (unquote inputS3Key) temp_pdf])%list
           \/ exists output_bucket pdf_size,
               s3_log (call handler w).2
               = (s3_log w
                  ++ [DownloadFile input_bucket (unquote inputS3Key) temp_pdf;
                      PutObject output_bucket (output_key_of event context)
                        (output_object empty_dict json_dumps_indent2 event context
                           input_bucket (unquote inputS3Key) pdf_size)])%list).
Proof.
  destruct (fields event !! "inputS3Bucket") as [ib|] eqn:Hib;
    [|left; destruct handler_missing_field as (k & _ & _ & _ & -> & _); eauto].
  destruct (fields event !! "inputS3Key") as [raw|] eqn:Hkey;
    [|left; destruct handler_missing_field as (k & _ & _ & _ & -> & _); eauto].
  destruct (fields event !! "outputS3Bucket") as [ob|] eqn:Hob;
    [|left; destruct handler_missing_field as (k & _ & _ & _ & -> & _); eauto].
  right. exists ib, raw. split; [done|]. split; [done|].
  destruct (s3_download_file client (s3 w) ib (unquote raw)) as [e|pdf_size] eqn:Hd.
  { left. by destruct (handler_download_error ib raw ob Hib Hkey Hob e Hd)
      as (_ & _ & -> & _). }
  right. exists ob, pdf_size.
  destruct (s3_put_object client (s3 w) ob (output_key_of event context)
              (output_object empty_dict json_dumps_indent2 event context ib
                 (unquote raw) pdf_size)) as [e|] eqn:Hp.
  - by destruct (handler_upload_error ib raw ob Hib Hkey Hob pdf_size e Hd Hp)
      as (_ & _ & -> & _).
  - by destruct (handler_success ib raw ob Hib Hkey Hob pdf_size Hd Hp)
      as (_ & _ & -> & _).
Qed.

End ProcessorPaths.

(** ** The conversion handler: the claims *)

Section ProcessorClaims.

Import Processor.

Variable client : s3_service.
Variable unquote : string -> string.
Variable options : Type.
Variable empty_dict : options.
Variable json_dumps_indent2 : options -> string.
Variable temp_name : gmap string N -> string -> string.
Variable unlink_error : gmap string N -> string -> option exn.
Variable event : event options.
Variable context : context.
Variable w : world.

Abbreviation handler :=
  (lambda_handler client unquote empty_dict json_dumps_indent2 temp_name
                  unlink_error event context).
Abbreviation temp_pdf := (temp_name (files w) ".pdf").

(** C2 (refuted on the code).  When the download raises, the handler
    returns its FAILED response and the temporary file it created is
    still on disk: the [os.unlink] of line 66 is on the success path
    only. *)
Theorem temp_file_survives_failed_download input_bucket inputS3Key output_bucket e :
  fields event !! "inputS3Bucket" = Some input_bucket ->
  fields event !! "inputS3Key" = Some inputS3Key ->
  fields event !! "outputS3Bucket" = Some output_bucket ->
  s3_download_file client (s3 w) input_bucket (unquote inputS3Key) = inl e ->
  (call handler w).1
  = Ok (Failed (job_id_of event context) "FAILED"
          ("Failed to download PDF: " +:+ str_exn e)
          ("s3://" +:+ input_bucket +:+ "/" +:+ inputS3Key))
  /\ files (call handler w).2 !! temp_pdf = Some 0%N.
Proof.
  intros Hib Hkey Hob Hd.
  destruct (handler_download_error client unquote options empty_dict
              json_dumps_indent2 temp_name unlink_error event context w
              input_bucket inputS3Key output_bucket Hib Hkey Hob e Hd)
    as (-> & _ & _ & ->).
  unfold get. rewrite Hib, Hkey. split; [done | apply lookup_insert_eq].
Qed.

(** The same on the other handled error, a failed upload: the downloaded
    file is still there. *)
Lemma temp_file_survives_failed_upload input_bucket inputS3Key output_bucket
      pdf_size e :
  fields event !! "inputS3Bucket" = Some input_bucket ->
  fields event !! "inputS3Key" = Some inputS3Key ->
  fields event !! "outputS3Bucket" = Some output_bucket ->
  s3_download_file client (s3 w) input_bucket (unquote inputS3Key) = inr pdf_size ->
  s3_put_object client (s3 w) output_bucket (output_key_of event context)
    (output_object empty_dict json_dumps_indent2 event context input_bucket
       (unquote inputS3Key) pdf_size) = Some e ->
  status_of <$> outcome_value (call handler w).1 = Some "FAILED"
  /\ files (call handler w).2 !! temp_pdf = Some pdf_size.
Proof.
  intros Hib Hkey Hob Hd Hp.
  destruct (handler_upload_error client unquote options empty_dict
              json_dumps_indent2 temp_name unlink_error event context w
              input_bucket inputS3Key output_bucket Hib Hkey Hob pdf_size e Hd Hp)
    as (-> & _ & _ & ->).
  split; [done | apply lookup_insert_eq].
Qed.

(** On the success path the file is gone when [os.unlink] succeeds, and a
    failure of [os.unlink] is swallowed: the response is the same. *)
Lemma temp_file_removed_on_success input_bucket inputS3Key output_bucket pdf_size :
  fields event !! "inputS3Bucket" = Some input_bucket ->
  fields event !! "inputS3Key" = Some inputS3Key ->
  fields event !! "outputS3Bucket" = Some output_bucket ->
  s3_download_file client (s3 w) input_bucket (unquote inputS3Key) = inr pdf_size ->
  s3_put_object client (s3 w) output_bucket (output_key_of event context)
    (output_object empty_dict json_dumps_indent2 event context input_bucket
       (unquote inputS3Key) pdf_size) = None ->
  status_of <$> outcome_value (call handler w).1 = Some "COMPLETED"
  /\ (unlink_error (<[temp_pdf := pdf_size]> (<[temp_pdf := 0%N]> (files w))) temp_pdf
      = None ->
      files (call handler w).2 !! temp_pdf = None).
Proof.
  intros Hib Hkey Hob Hd Hp.
  destruct (handler_success client unquote options empty_dict
              json_dumps_indent2 temp_name unlink_error event context w
              input_bucket inputS3Key output_bucket Hib Hkey Hob pdf_size Hd Hp)
    as (-> & _ & _ & ->).
  split; [done|]. intros ->. apply lookup_delete_eq.
Qed.

(** C4.  For a request with all required fields whose download and upload
    succeed, the handler writes one object, at
    [<outputS3Prefix><jobId>/converted.html] in [outputS3Bucket], with
    content type [text/html] and the job id, source bucket, source key and
    request id as metadata, and returns COMPLETED with [outputLocation]
    [s3://<outputS3Bucket>/<outputS3Prefix><jobId>/]. *)
Theorem conversion_writes_one_object input_bucket inputS3Key output_bucket pdf_size :
  let job_id := get (fields event) "jobId" ("job-" +:+ aws_request_id context) in
  let output_prefix := get (fields event) "outputS3Prefix" "converted/" in
  let output_key := output_prefix +:+ job_id +:+ "/converted.html" in
  let object :=
    output_object empty_dict json_dumps_indent2 event context input_bucket
                  (unquote inputS3Key) pdf_size in
  fields event !! "inputS3Bucket" = Some input_bucket ->
  fields event !! "inputS3Key" = Some inputS3Key ->
  fields event !! "outputS3Bucket" = Some output_bucket ->
  s3_download_file client (s3 w) input_bucket (unquote inputS3Key) = inr pdf_size ->
  s3_put_object client (s3 w) output_bucket output_key object = None ->
  (exists conversion_result inputLocation,
      (call handler w).1
      = Ok (Completed job_id "COMPLETED"
              ("s3://" +:+ output_bucket +:+ "/" +:+ output_prefix +:+ job_id +:+ "/")
              conversion_result inputLocation))
  /\ s3 (call handler w).2 = <[(output_bucket, output_key) := object]> (s3 w)
  /\ s3_log (call handler w).2
     = (s3_log w
        ++ [DownloadFile input_bucket (unquote inputS3Key) temp_pdf;
            PutObject output_bucket output_key object])%list
  /\ ContentType object = "text/html"
  /\ Metadata object
     = {[ "job-id" := job_id;
          "source-bucket" := input_bucket;
          "source-key" := unquote inputS3Key;
          "conversion-timestamp" := aws_request_id context ]}.
Proof.
  intros job_id output_prefix output_key object Hib Hkey Hob Hd Hp.
  destruct (handler_success client unquote options empty_dict
              json_dumps_indent2 temp_name unlink_error event context w
              input_bucket inputS3Key output_bucket Hib Hkey Hob pdf_size Hd Hp)
    as (Hr & Hs & Hl & _).
  split; [eexists _, _; exact Hr|]. split; [exact Hs|].
  split; [exact Hl|]. split; reflexivity.
Qed.

(** C5.  A request without [inputS3Bucket] gets a FAILED response with a
    non-empty error message and the [inputLocation]
    [s3://<bucket>/<key>] built with the empty string for each absent
    field; the handler returns it, it does not raise. *)
Theorem missing_input_bucket_is_reported :
  fields event !! "inputS3Bucket" = None ->
  exists error,
    (call handler w).1
    = Ok (Failed (job_id_of event context) "FAILED" error
            ("s3://" +:+ EmptyString +:+ "/"
             +:+ get (fields event) "inputS3Key" EmptyString))
    /\ error <> EmptyString.
Proof.
  intros Hib.
  destruct (handler_missing_field client unquote options empty_dict
              json_dumps_indent2 temp_name unlink_error event context w
              (or_introl Hib))
    as (key & Hr & Hkey & _).
  rewrite (Hkey Hib) in Hr. exists (str_exn (KeyError "inputS3Bucket")).
  split; [|discriminate].
  rewrite Hr. unfold get at 1. rewrite Hib. reflexivity.
Qed.

(** C7.  The key is decoded once, at line 15, before any storage
    operation.  With the required fields present the handler's first call
    to the storage client is the download of the decoded key, and every
    call it makes carries the decoded key (the download as its key, the
    upload as the [source-key] metadata); when download and upload
    succeed, the COMPLETED response records the decoded key in
    [inputLocation] and the stored object has it as [source-key]. *)
Theorem input_key_is_decoded_before_use inputS3Key :
  fields event !! "inputS3Key" = Some inputS3Key ->
  (exists added,
      s3_log (call handler w).2 = (s3_log w ++ added)%list
      /\ Forall (fun r =>
                   match r with
                   | DownloadFile _ Key _ => Key = unquote inputS3Key
                   | PutObject _ _ object =>
                       Metadata object !! "source-key" = Some (unquote inputS3Key)
                   | ListObjectsV2 _ _ => False
                   end) added)
  /\ (forall jobId status outputLocation conversionResult inputLocation,
        (call handler w).1
        = Ok (Completed jobId status outputLocation conversionResult inputLocation) ->
        exists input_bucket output_bucket object,
          fields event !! "inputS3Bucket" = Some input_bucket
          /\ inputLocation = "s3://" +:+ input_bucket +:+ "/" +:+ unquote inputS3Key
          /\ s3 (call handler w).2 !! (output_bucket, output_key_of event context)
             = Some object
          /\ Metadata object !! "source-key" = Some (unquote inputS3Key))
  /\ (forall input_bucket output_bucket,
        fields event !! "inputS3Bucket" = Some input_bucket ->
        fields event !! "outputS3Bucket" = Some output_bucket ->
        exists rest,
          s3_log (call handler w).2
          = (s3_log w
             ++ DownloadFile input_bucket (unquote inputS3Key) temp_pdf :: rest)%list)
  /\ (forall input_bucket output_bucket pdf_size,
        fields event !! "inputS3Bucket" = Some input_bucket ->
        fields event !! "outputS3Bucket" = Some output_bucket ->
        s3_download_file client (s3 w) input_bucket (unquote inputS3Key)
        = inr pdf_size ->
        s3_put_object client (s3 w) output_bucket (output_key_of event context)
          (output_object empty_dict json_dumps_indent2 event context input_bucket
             (unquote inputS3Key) pdf_size) = None ->
        (exists outputLocation conversionResult,
            (call handler w).1
            = Ok (Completed (job_id_of event context) "COMPLETED" outputLocation
                    conversionResult
                    ("s3://" +:+ input_bucket +:+ "/" +:+ unquote inputS3Key)))
        /\ exists stored,
            s3 (call handler w).2 !! (output_bucket, output_key_of event context)
            = Some stored
            /\ Metadata stored !! "source-key" = Some (unquote inputS3Key)).
Proof.
  intros Hkey. split; [|split; [|split]].
  - destruct (handler_storage_calls client unquote options empty_dict
                json_dumps_indent2 temp_name unlink_error event context w)
      as [->|(ib & raw & Hib & Hraw & Hlog)].
    + exists []. rewrite app_nil_r. split; [done | constructor].
    + rewrite Hkey in Hraw. injection Hraw as <-.
      destruct Hlog as [->|(ob & pdf_size & ->)]; eexists; (split; [done|]);
        repeat constructor.
  - intros jobId status outputLocation conversionResult inputLocation Hr.
    destruct (fields event !! "inputS3Bucket") as [ib|] eqn:Hib.
    2:{ destruct (handler_missing_field client unquote options empty_dict
                    json_dumps_indent2 temp_name unlink_error event context w
                    (or_introl Hib)) as (k & Hf & _).
        rewrite Hf in Hr. discriminate. }
    destruct (fields event !! "outputS3Bucket") as [ob|] eqn:Hob.
    2:{ destruct (handler_missing_field client unquote options empty_dict
                    json_dumps_indent2 temp_name unlink_error event context w
                    (or_intror (or_intror Hob))) as (k & Hf & _).
        rewrite Hf in Hr. discriminate. }
    destruct (s3_download_file client (s3 w) ib (unquote inputS3Key))
      as [e|pdf_size] eqn:Hd.
    { destruct (handler_download_error client unquote options empty_dict
                  json_dumps_indent2 temp_name unlink_error event context w
                  ib inputS3Key ob Hib Hkey Hob e Hd) as (Hf & _).
      rewrite Hf in Hr. discriminate. }
    destruct (s3_put_object client (s3 w) ob (output_key_of event context)
                (output_object empty_dict json_dumps_indent2 event context ib
                   (unquote inputS3Key) pdf_size)) as [e|] eqn:Hp.
    { destruct (handler_upload_error client unquote options empty_dict
                  json_dumps_indent2 temp_name unlink_error event context w
                  ib inputS3Key ob Hib Hkey Hob pdf_size e Hd Hp) as (Hf & _).
      rewrite Hf in Hr. discriminate. }
    destruct (handler_success client unquote options empty_dict
                json_dumps_indent2 temp_name unlink_error event context w
                ib inputS3Key ob Hib Hkey Hob pdf_size Hd Hp) as (Hf & Hs & _).
    rewrite Hf in Hr. injection Hr as <- <- <- <- <-.
    eexists ib, ob, _. split; [done|]. split; [done|].
    rewrite Hs, lookup_insert_eq. split; [done|]. cbn. by simplify_map_eq.
  - intros ib ob Hib Hob.
    destruct (s3_download_file client (s3 w) ib (unquote inputS3Key))
      as [e|pdf_size] eqn:Hd.
    { destruct (handler_download_error client unquote options empty_dict
                  json_dumps_indent2 temp_name unlink_error event context w
                  ib inputS3Key ob Hib Hkey Hob e Hd) as (_ & _ & -> & _).
      by eexists. }
    destruct (s3_put_object client (s3 w) ob (output_key_of event context)
                (output_object empty_dict json_dumps_indent2 event context ib
                   (unquote inputS3Key) pdf_size)) as [e|] eqn:Hp.
    + destruct (handler_upload_error client unquote options empty_dict
                  json_dumps_indent2 temp_name unlink_error event context w
                  ib inputS3Key ob Hib Hkey Hob pdf_size e Hd Hp) as (_ & _ & -> & _).
      by eexists.
    + destruct (handler_success client unquote options empty_dict
                  json_dumps_indent2 temp_name unlink_error event context w
                  ib inputS3Key ob Hib Hkey Hob pdf_size Hd Hp) as (_ & _ & -> & _).
      by eexists.
  - intros ib ob pdf_size Hib Hob Hd Hp.
    destruct (handler_success client unquote options empty_dict
                json_dumps_indent2 temp_name unlink_error event context w
                ib inputS3Key ob Hib Hkey Hob pdf_size Hd Hp) as (Hf & Hs & _).
    split; [rewrite Hf; eauto|].
    eexists. rewrite Hs, lookup_insert_eq. split; [done|]. cbn. by simplify_map_eq.
Qed.

(** C9.  A FAILED response carries in [inputLocation] the key as the
    request supplied it, not decoded; so when decoding changes the key,
    the location differs from the one a COMPLETED response would
    record. *)
Theorem failure_location_keeps_raw_key jobId status error inputLocation :
  (call handler w).1 = Ok (Failed jobId status error inputLocation) ->
  inputLocation
  = "s3://" +:+ get (fields event) "inputS3Bucket" EmptyString +:+ "/"
    +:+ get (fields event) "inputS3Key" EmptyString
  /\ (forall inputS3Key,
        fields event !! "inputS3Key" = Some inputS3Key ->
        unquote inputS3Key <> inputS3Key ->
        inputLocation
        <> "s3://" +:+ get (fields event) "inputS3Bucket" EmptyString +:+ "/"
           +:+ unquote inputS3Key).
Proof.
  intros Hr.
  assert (Hloc : inputLocation
                 = "s3://" +:+ get (fields event) "inputS3Bucket" EmptyString +:+ "/"
                   +:+ get (fields event) "inputS3Key" EmptyString).
  { destruct (handler_outcome client unquote options empty_dict
                json_dumps_indent2 temp_name unlink_error event context w)
      as [(err & Hf)|(ib & raw & ob & _ & _ & _ & Hc)];
      rewrite Hr in *; [by injection Hf as _ _ _ -> | discriminate]. }
  split; [exact Hloc|].
  intros raw Hkey Hne Heq. rewrite Hloc in Heq. unfold get at 2 in Heq.
  rewrite Hkey in Heq. change (default EmptyString (Some raw)) with raw in Heq.
  do 3 apply append_inj_l in Heq. congruence.
Qed.

End ProcessorClaims.

(** ** The claims on concrete requests *)

(** C6 (refuted on the code).  With the key
    [converted/job1/converted/job1/x.html] listed under the prefix
    [converted/job1/], the handler's relative name is [x.html]:
    [replace] removed the prefix at the front and again inside, where
    the key stripped at the front only is [converted/job1/x.html]. *)
Theorem relative_name_loses_every_occurrence :
  let Key := "converted/job1/converted/job1/x.html" in
  (call (StatusChecker.lambda_handler (listing_service (inr (Some [Key]))) job1_status)
        empty_world).1
  = Ok (StatusChecker.StatusResponse "job1" "COMPLETED" "s3://out/converted/job1/"
          ["x.html"])
  /\ strip_leading_prefix (StatusChecker.job_output_prefix job1_status) Key
     = "converted/job1/x.html".
Proof. split; vm_compute; reflexivity. Qed.

(** C3 (refuted on the code).  With the one key
    [converted/job1/notes.htconverted/job1/ml] listed under the prefix
    [converted/job1/], an object is present and its relative name,
    [notes.htconverted/job1/ml], does not end in [.html], nor does the key:
    the classification gives IN_PROGRESS.  The handler answers COMPLETED,
    because [replace] also removed the inner occurrence of the prefix and
    left [notes.html]. *)
Theorem inner_occurrence_changes_status :
  let Key := "converted/job1/notes.htconverted/job1/ml" in
  (call (StatusChecker.lambda_handler (listing_service (inr (Some [Key]))) job1_status)
        empty_world).1
  = Ok (StatusChecker.StatusResponse "job1" "COMPLETED" "s3://out/converted/job1/"
          ["notes.html"])
  /\ endswith Key ".html" = false
  /\ endswith (strip_leading_prefix (StatusChecker.job_output_prefix job1_status) Key)
              ".html" = false
  /\ strip_leading_prefix (StatusChecker.job_output_prefix job1_status) Key
     = "notes.htconverted/job1/ml".
Proof. repeat split; vm_compute; reflexivity. Qed.

Lemma status_handler_raises_without_bucket_witness :
  ({[ "jobId" := "job1" ]} : gmap string string) !! "outputS3Bucket" = None
  /\ (call (StatusChecker.lambda_handler (listing_service (inr None))
                                         {[ "jobId" := "job1" ]})
           empty_world).1
     = Raise (UnboundLocalError "output_bucket").
Proof.
  split; [reflexivity|].
  apply status_handler_raises_without_bucket. reflexivity.
Defined.

Lemma status_three_way_classification_witness :
  let client := listing_service (inr (Some ["converted/job1/converted.html"])) in
  job1_status !! "outputS3Bucket" = Some "out"
  /\ s3_list_objects_v2 client (s3 empty_world) "out"
       (StatusChecker.job_output_prefix job1_status)
     = inr (Some ["converted/job1/converted.html"])
  /\ exists status files_found,
      (call (StatusChecker.lambda_handler client job1_status) empty_world).1
      = Ok (StatusChecker.StatusResponse "job1" status "s3://out/converted/job1/"
              files_found)
      /\ files_found = ["converted.html"]
      /\ status = "COMPLETED".
Proof.
  cbn zeta. split; [reflexivity|]. split; [reflexivity|].
  destruct (status_three_way_classification
              (listing_service (inr (Some ["converted/job1/converted.html"])))
              job1_status empty_world "out" (Some ["converted/job1/converted.html"])
              eq_refl eq_refl)
    as (status & files_found & Hr & Hff & _ & _ & Hc & _).
  exists status, files_found. split; [exact Hr|].
  assert (Hnames : files_found = ["converted.html"]) by (rewrite Hff; reflexivity).
  split; [exact Hnames|].
  apply Hc. exists "converted.html". rewrite Hnames. split; [left | reflexivity].
Defined.

Lemma folder_marker_is_empty_name_witness :
  let client := listing_service (inr (Some ["converted/job1/"])) in
  job1_status !! "outputS3Bucket" = Some "out"
  /\ StatusChecker.job_output_prefix job1_status ∈ ["converted/job1/"]
  /\ exists status files_found,
      (call (StatusChecker.lambda_handler client job1_status) empty_world).1
      = Ok (StatusChecker.StatusResponse "job1" status "s3://out/converted/job1/"
              files_found)
      /\ EmptyString ∈ files_found
      /\ status = "IN_PROGRESS"
      /\ files_found <> [].
Proof.
  cbn zeta. split; [reflexivity|].
  assert (Hin : StatusChecker.job_output_prefix job1_status ∈ ["converted/job1/"])
    by left.
  split; [exact Hin|].
  destruct (folder_marker_is_empty_name
              (listing_service (inr (Some ["converted/job1/"])))
              job1_status empty_world "out" ["converted/job1/"]
              eq_refl eq_refl Hin)
    as (status & files_found & Hr & Hempty & _ & Honly).
  exists status, files_found. split; [exact Hr|]. split; [exact Hempty|].
  destruct Honly as (Hs & Hne & _); [repeat constructor | done].
Defined.

Lemma temp_file_survives_failed_download_witness :
  let client := constant_service (inr None) (inl not_found) None in
  Processor.fields job1_conversion !! "inputS3Bucket" = Some "in"
  /\ Processor.fields job1_conversion !! "inputS3Key" = Some "a%20b.pdf"
  /\ Processor.fields job1_conversion !! "outputS3Bucket" = Some "out"
  /\ s3_download_file client (s3 empty_world) "in" (percent_decode "a%20b.pdf")
     = inl not_found
  /\ (call (convert client job1_conversion) empty_world).1
     = Ok (Processor.Failed "job1" "FAILED"
             ("Failed to download PDF: " +:+ str_exn not_found)
             "s3://in/a%20b.pdf")
  /\ files (call (convert client job1_conversion) empty_world).2 !! "/tmp/tmpq3x9.pdf"
     = Some 0%N.
Proof.
  cbn zeta. do 4 (split; [reflexivity|]).
  apply (temp_file_survives_failed_download
           (constant_service (inr None) (inl not_found) None) percent_decode unit tt
           (fun _ => "{}") tmp_q3x9 (fun _ _ => None) job1_conversion request_1
           empty_world "in" "a%20b.pdf" "out" not_found);
    reflexivity.
Defined.

Lemma conversion_writes_one_object_witness :
  let client := constant_service (inr None) (inr 1234567%N) None in
  let object :=
    Processor.output_object tt (fun _ => "{}") job1_conversion request_1 "in"
                            "a b.pdf" 1234567%N in
  Processor.fields job1_conversion !! "inputS3Bucket" = Some "in"
  /\ Processor.fields job1_conversion !! "inputS3Key" = Some "a%20b.pdf"
  /\ Processor.fields job1_conversion !! "outputS3Bucket" = Some "out"
  /\ s3_download_file client (s3 empty_world) "in" (percent_decode "a%20b.pdf")
     = inr 1234567%N
  /\ s3_put_object client (s3 empty_world) "out" "converted/job1/converted.html" object
     = None
  /\ (exists conversion_result inputLocation,
        (call (convert client job1_conversion) empty_world).1
        = Ok (Processor.Completed "job1" "COMPLETED" "s3://out/converted/job1/"
                conversion_result inputLocation))
  /\ s3 (call (convert client job1_conversion) empty_world).2
     = {[ ("out", "converted/job1/converted.html") := object ]}
  /\ s3_log (call (convert client job1_conversion) empty_world).2
     = [DownloadFile "in" "a b.pdf" "/tmp/tmpq3x9.pdf";
        PutObject "out" "converted/job1/converted.html" object]
  /\ ContentType object = "text/html"
  /\ Metadata object
     = {[ "job-id" := "job1"; "source-bucket" := "in"; "source-key" := "a b.pdf";
          "conversion-timestamp" := "req-1" ]}.
Proof.
  cbn zeta. do 5 (split; [reflexivity|]).
  apply (conversion_writes_one_object
           (constant_service (inr None) (inr 1234567%N) None) percent_decode unit tt
           (fun _ => "{}") tmp_q3x9 (fun _ _ => None) job1_conversion request_1
           empty_world "in" "a%20b.pdf" "out" 1234567%N);
    reflexivity.
Defined.

Lemma missing_input_bucket_is_reported_witness :
  let client := constant_service (inr None) (inr 1234567%N) None in
  Processor.fields no_input_bucket !! "inputS3Bucket" = None
  /\ exists error,
      (call (convert client no_input_bucket) empty_world).1
      = Ok (Processor.Failed "job1" "FAILED" error "s3:///a%20b.pdf")
      /\ error <> EmptyString.
Proof.
  cbn zeta. split; [reflexivity|].
  apply (missing_input_bucket_is_reported
           (constant_service (inr None) (inr 1234567%N) None) percent_decode unit tt
           (fun _ => "{}") tmp_q3x9 (fun _ _ => None) no_input_bucket request_1
           empty_world).
  reflexivity.
Defined.

Lemma input_key_is_decoded_before_use_witness :
  let client := constant_service (inr None) (inr 1234567%N) None in
  let run := call (convert client job1_conversion) empty_world in
  Processor.fields job1_conversion !! "inputS3Key" = Some "a%20b.pdf"
  /\ percent_decode "a%20b.pdf" = "a b.pdf"
  /\ (exists rest,
        s3_log run.2
        = (s3_log empty_world
           ++ DownloadFile "in" (percent_decode "a%20b.pdf")
                           (tmp_q3x9 (files empty_world) ".pdf") :: rest)%list)
  /\ (exists outputLocation conversionResult,
        run.1
        = Ok (Processor.Completed (Processor.job_id_of job1_conversion request_1)
                "COMPLETED" outputLocation conversionResult
                ("s3://" +:+ "in" +:+ "/" +:+ percent_decode "a%20b.pdf")))
  /\ (exists stored,
        s3 run.2 !! ("out", Processor.output_key_of job1_conversion request_1)
        = Some stored
        /\ Metadata stored !! "source-key" = Some (percent_decode "a%20b.pdf")).
Proof.
  cbn zeta. split; [reflexivity|]. split; [reflexivity|].
  destruct (input_key_is_decoded_before_use
              (constant_service (inr None) (inr 1234567%N) None) percent_decode unit tt
              (fun _ => "{}") tmp_q3x9 (fun _ _ => None) job1_conversion request_1
              empty_world "a%20b.pdf" eq_refl)
    as (_ & _ & Hfirst & Hdone).
  split; [exact (Hfirst "in" "out" eq_refl eq_refl)|].
  exact (Hdone "in" "out" 1234567%N eq_refl eq_refl eq_refl eq_refl).
Defined.

Lemma failure_location_keeps_raw_key_witness :
  let client := constant_service (inr None) (inl not_found) None in
  (call (convert client job1_conversion) empty_world).1
  = Ok (Processor.Failed "job1" "FAILED"
          ("Failed to download PDF: " +:+ str_exn not_found) "s3://in/a%20b.pdf")
  /\ percent_decode "a%20b.pdf" <> "a%20b.pdf"
  /\ "s3://in/a%20b.pdf" <> "s3://in/" +:+ percent_decode "a%20b.pdf".
Proof.
  cbn zeta.
  assert (Hrun : (call (convert (constant_service (inr None) (inl not_found) None)
                                job1_conversion) empty_world).1
                 = Ok (Processor.Failed "job1" "FAILED"
                         ("Failed to download PDF: " +:+ str_exn not_found)
                         "s3://in/a%20b.pdf")) by reflexivity.
  assert (Hne : percent_decode "a%20b.pdf" <> "a%20b.pdf") by discriminate.
  split; [exact Hrun|]. split; [exact Hne|].
  destruct (failure_location_keeps_raw_key
              (constant_service (inr None) (inl not_found) None) percent_decode unit
              tt (fun _ => "{}") tmp_q3x9 (fun _ _ => None) job1_conversion request_1
              empty_world _ _ _ _ Hrun)
    as [_ Hother].
  exact (Hother "a%20b.pdf" eq_refl Hne).
Defined.

(** ** More on the string operations *)

Lemma app_cons c s t : String c s +:+ t = String c (s +:+ t).
Proof. reflexivity. Qed.

Lemma app_nil s : EmptyString +:+ s = s.
Proof. reflexivity. Qed.

Lemma prefix_app p r : String.prefix p (p +:+ r) = true.
Proof.
  induction p as [|c p IH]; [by destruct r|].
  rewrite app_cons. cbn [String.prefix]. destruct (ascii_dec c c); [done | congruence].
Qed.

Lemma prefix_app_same p x y : String.prefix (p +:+ x) (p +:+ y) = String.prefix x y.
Proof.
  induction p as [|c p IH]; [done|].
  rewrite !app_cons. cbn [String.prefix]. destruct (ascii_dec c c); [done | congruence].
Qed.

Lemma length_app s t : String.length (s +:+ t) = (String.length s + String.length t)%nat.
Proof.
  induction s as [|c s IH]; [done|].
  rewrite app_cons. cbn [String.length]. rewrite IH. reflexivity.
Qed.

Lemma app_assoc_string s t u : (s +:+ t) +:+ u = s +:+ t +:+ u.
Proof.
  induction s as [|c s IH]; [done|]. rewrite !app_cons. congruence.
Qed.

Lemma replace_from_skip_app old new a r :
  replace_from old new (String.length a) (a +:+ r) = replace_from old new 0 r.
Proof.
  induction a as [|c a IH]; [done|]. rewrite app_cons. exact IH.
Qed.

Lemma replace_from_no_occurrence old new s :
  occurs old s = false -> replace_from old new 0 s = s.
Proof.
  induction s as [|c s IH]; [done|].
  cbn [occurs replace_from]. intros [Hp Ho]%orb_false_elim.
  rewrite Hp, IH; done.
Qed.

(** Removing a prefix that does not occur again leaves the rest. *)
Lemma replace_strip p r :
  p <> EmptyString -> occurs p r = false -> replace (p +:+ r) p EmptyString = r.
Proof.
  destruct p as [|c p]; [congruence | intros _ Ho].
  unfold replace. rewrite app_cons. cbn [replace_from]. rewrite <- app_cons, prefix_app.
  replace (String.length (String c p) - 1)%nat with (String.length p)
    by (cbn [String.length]; lia).
  rewrite app_nil, replace_from_skip_app.
  by apply replace_from_no_occurrence.
Qed.

(** A string that ends in a character occurs only where that character is. *)
Lemma prefix_has_last q c t :
  String.prefix (q +:+ String c EmptyString) t = true -> In c (list_ascii_of_string t).
Proof.
  revert t. induction q as [|d q IH]; intros [|b t]; rewrite ?app_nil, ?app_cons;
    cbn [String.prefix list_ascii_of_string]; try done.
  - destruct (ascii_dec c b); [left; done | done].
  - destruct (ascii_dec d b); [right; auto | done].
Qed.

Lemma occurs_has_last q c t :
  occurs (q +:+ String c EmptyString) t = true -> In c (list_ascii_of_string t).
Proof.
  induction t as [|b t IH]; cbn [occurs]; intros [H|H]%orb_true_elim.
  - by apply prefix_has_last in H.
  - done.
  - by apply prefix_has_last in H.
  - right. auto.
Qed.

Lemma not_occurs_without_last q c t :
  ~ In c (list_ascii_of_string t) -> occurs (q +:+ String c EmptyString) t = false.
Proof.
  intros Hn. destruct (occurs _ t) eqn:Ho; [|done].
  by apply occurs_has_last in Ho.
Qed.

Lemma substring_all s : String.substring 0 (String.length s) s = s.
Proof. induction s as [|c s IH]; cbn; [done | by rewrite IH]. Qed.

Lemma substring_skip x s :
  String.substring (String.length x) (String.length s) (x +:+ s) = s.
Proof.
  induction x as [|c x IH]; [apply substring_all|].
  rewrite app_cons. exact IH.
Qed.

Lemma substring_tail s n :
  exists x, s = x +:+ String.substring n (String.length s - n) s.
Proof.
  revert n. induction s as [|c s IH]; intros n.
  - exists EmptyString. by destruct n.
  - destruct n as [|n].
    + exists EmptyString. rewrite Nat.sub_0_r, substring_all. done.
    + destruct (IH n) as [x Hx]. exists (String c x).
      rewrite app_cons. cbn [String.length String.substring Nat.sub]. congruence.
Qed.

Lemma endswith_app x suffix : endswith (x +:+ suffix) suffix = true.
Proof.
  unfold endswith. rewrite length_app.
  replace (String.length x + String.length suffix - String.length suffix)%nat
    with (String.length x) by lia.
  rewrite substring_skip, String.eqb_refl, andb_true_r.
  apply Nat.leb_le. lia.
Qed.

Lemma endswith_inv s suffix : endswith s suffix = true -> exists x, s = x +:+ suffix.
Proof.
  unfold endswith. intros [Hl He]%andb_true_iff.
  apply Nat.leb_le in Hl. apply String.eqb_eq in He.
  destruct (substring_tail s (String.length s - String.length suffix)) as [x Hx].
  replace (String.length s - (String.length s - String.length suffix))%nat
    with (String.length suffix) in Hx by lia.
  exists x. congruence.
Qed.

(** An occurrence of a string ending in [c] cannot reach into a part
    without [c]. *)
Lemma prefix_within q c a suffix :
  ~ In c (list_ascii_of_string suffix) ->
  String.prefix (q +:+ String c EmptyString) (a +:+ suffix) = true ->
  (String.length (q +:+ String c EmptyString) <= String.length a)%nat.
Proof.
  intros Hn. revert q. induction a as [|b a IH]; intros q Hp.
  - rewrite app_nil in Hp. by apply prefix_has_last in Hp.
  - destruct q as [|d q].
    + rewrite app_nil. cbn [String.length]. lia.
    + rewrite !app_cons in Hp. cbn [String.prefix] in Hp.
      destruct (ascii_dec d b); [|done].
      rewrite app_cons. cbn [String.length]. apply IH in Hp. lia.
Qed.

Lemma replace_from_keeps_suffix q c new suffix :
  ~ In c (list_ascii_of_string suffix) ->
  forall pre k,
    (k <= String.length pre)%nat ->
    exists x,
      replace_from (q +:+ String c EmptyString) new k (pre +:+ suffix) = x +:+ suffix.
Proof.
  intros Hn. induction pre as [|b pre IH]; intros k Hk.
  - cbn in Hk. assert (k = 0)%nat as -> by lia. exists EmptyString.
    rewrite !app_nil. apply replace_from_no_occurrence.
    by apply not_occurs_without_last.
  - rewrite app_cons. cbn [replace_from String.length] in *.
    destruct k as [|k]; [|apply IH; lia].
    rewrite <- app_cons.
    destruct (String.prefix _ (String b pre +:+ suffix)) eqn:Hp.
    + apply prefix_within in Hp; [|done]. cbn [String.length] in Hp.
      destruct (IH (String.length (q +:+ String c EmptyString) - 1)%nat) as [x Hx];
        [lia|].
      exists (new +:+ x). rewrite Hx. by rewrite app_assoc_string.
    + destruct (IH 0%nat) as [x Hx]; [lia|].
      exists (String b x). rewrite Hx. done.
Qed.

(** [replace] by a string ending in [c] keeps a suffix without [c]. *)
Lemma replace_keeps_suffix q c new suffix s :
  ~ In c (list_ascii_of_string suffix) ->
  endswith s suffix = true ->
  endswith (replace s (q +:+ String c EmptyString) new) suffix = true.
Proof.
  intros Hn [pre ->]%endswith_inv.
  destruct (replace_from_keeps_suffix q c new suffix Hn pre 0) as [x Hx]; [lia|].
  unfold replace.
  destruct (q +:+ String c EmptyString) eqn:Hq.
  - by destruct q.
  - rewrite Hx. apply endswith_app.
Qed.

(** ** The status handler: further properties *)

Section StatusFurther.

Import StatusChecker.

Variable client : s3_service.
Variable event : gmap string string.
Variable w : world.

(** X1.  With [outputS3Bucket] present, a listing that raises gives the
    FAILED response: the error's message, the job's output location, no
    [filesFound]; the object store is not touched. *)
Theorem listing_failure_is_reported bucket e :
  event !! "outputS3Bucket" = Some bucket ->
  s3_list_objects_v2 client (s3 w) bucket (job_output_prefix event) = inl e ->
  (call (lambda_handler client event) w).1
  = Ok (ErrorResponse (get event "jobId" "unknown") "FAILED" (str_exn e)
          ("s3://" +:+ bucket +:+ "/" +:+ get event "outputS3Prefix" "converted/"
           +:+ get event "jobId" "unknown" +:+ "/"))
  /\ s3 (call (lambda_handler client event) w).2 = s3 w.
Proof.
  intros Hb He.
  destruct (handler_listing_error client event w bucket e Hb He) as (Hr & Hs & _).
  done.
Qed.

(** X2.  The handler asks the storage client at most once: one listing of
    [<outputS3Prefix><jobId>/] in [outputS3Bucket] when the request names
    the bucket, nothing when it does not. *)
Theorem status_handler_lists_once :
  s3_log (call (lambda_handler client event) w).2
  = (s3_log w
     ++ match event !! "outputS3Bucket" with
        | Some bucket =>
            [ListObjectsV2 bucket
               (get event "outputS3Prefix" "converted/"
                +:+ get event "jobId" "unknown" +:+ "/")]
        | None => []
        end)%list.
Proof.
  destruct (event !! "outputS3Bucket") as [bucket|] eqn:Hb.
  - destruct (s3_list_objects_v2 client (s3 w) bucket (job_output_prefix event))
      as [e|response] eqn:Hl.
    + by destruct (handler_listing_error client event w bucket e Hb Hl) as (_ & _ & ->).
    + by destruct (handler_listing_ok client event w bucket response Hb Hl)
        as (_ & _ & ->).
  - destruct (handler_missing_bucket client event w Hb) as (_ & _ & ->).
    by rewrite app_nil_r.
Qed.

(** X3.  A listed key that ends in [.html] makes the job COMPLETED,
    whatever else the key contains: the prefix ends in [/], so removing
    its occurrences cannot touch the ending. *)
Theorem html_key_means_completed bucket Contents Key :
  event !! "outputS3Bucket" = Some bucket ->
  s3_list_objects_v2 client (s3 w) bucket (job_output_prefix event)
  = inr (Some Contents) ->
  Key ∈ Contents ->
  endswith Key ".html" = true ->
  exists files_found,
    (call (lambda_handler client event) w).1
    = Ok (StatusResponse (get event "jobId" "unknown") "COMPLETED"
            ("s3://" +:+ bucket +:+ "/" +:+ job_output_prefix event) files_found).
Proof.
  intros Hb Hl Hin Hhtml.
  destruct (handler_listing_ok client event w bucket (Some Contents) Hb Hl) as [Hr _].
  change (listed (Some Contents)) with Contents in Hr.
  eexists. rewrite Hr. do 2 f_equal.
  set (relative := fun Key => replace Key (job_output_prefix event) EmptyString).
  assert (Hrel : endswith (relative Key) ".html" = true).
  { unfold relative, job_output_prefix. rewrite <- app_assoc_string.
    apply replace_keeps_suffix; [|done].
    cbn. intros H. repeat destruct H as [H|H]; try discriminate H; done. }
  assert (Hmem : relative Key
                 ∈ filter (fun f => endswith f ".html" = true) (map relative Contents)).
  { apply list_elem_of_filter. split; [done|].
    apply list_elem_of_In, in_map, list_elem_of_In, Hin. }
  destruct (filter _ _); [by apply not_elem_of_nil in Hmem | done].
Qed.

(** X4.  When every listed key is the job prefix followed by a name in
    which the prefix does not occur again, [filesFound] is the list of
    those names, in the order listed. *)
Theorem names_under_prefix_are_kept bucket names :
  event !! "outputS3Bucket" = Some bucket ->
  s3_list_objects_v2 client (s3 w) bucket (job_output_prefix event)
  = inr (Some (map (fun name => job_output_prefix event +:+ name) names)) ->
  Forall (fun name => occurs (job_output_prefix event) name = false) names ->
  exists status,
    (call (lambda_handler client event) w).1
    = Ok (StatusResponse (get event "jobId" "unknown") status
            ("s3://" +:+ bucket +:+ "/" +:+ job_output_prefix event) names).
Proof.
  intros Hb Hl Hnames.
  destruct (handler_listing_ok client event w bucket _ Hb Hl) as [Hr _].
  change (listed (Some ?l)) with l in Hr. rewrite List.map_map in Hr.
  assert (Hkept : map (fun name =>
                         replace (job_output_prefix event +:+ name)
                                 (job_output_prefix event) EmptyString) names
                  = names).
  { clear Hr Hl. induction Hnames as [|name names Hname _ IH]; [done|].
    cbn [map]. rewrite IH. f_equal. apply replace_strip; [|done].
    unfold job_output_prefix. by do 2 apply append_nonempty_r. }
  rewrite Hkept in Hr. eexists. exact Hr.
Qed.

(** X5.  The outcomes of the handler: it raises exactly when the request
    has no [outputS3Bucket]; otherwise it returns COMPLETED or IN_PROGRESS
    with [filesFound], or FAILED with an error and no [filesFound]. *)
Theorem status_handler_outcomes :
  match (call (lambda_handler client event) w).1 with
  | Raise e =>
      event !! "outputS3Bucket" = None /\ e = UnboundLocalError "output_bucket"
  | Ok (StatusResponse _ status _ _) =>
      is_Some (event !! "outputS3Bucket")
      /\ (status = "COMPLETED" \/ status = "IN_PROGRESS")
  | Ok (ErrorResponse _ status _ _) =>
      is_Some (event !! "outputS3Bucket") /\ status = "FAILED"
  end.
Proof.
  destruct (event !! "outputS3Bucket") as [bucket|] eqn:Hb.
  - destruct (s3_list_objects_v2 client (s3 w) bucket (job_output_prefix event))
      as [e|response] eqn:Hl.
    + destruct (handler_listing_error client event w bucket e Hb Hl) as (-> & _).
      split; [by eexists | done].
    + destruct (handler_listing_ok client event w bucket response Hb Hl) as (-> & _).
      split; [by eexists|]. destruct (filter _ _); auto.
  - by destruct (handler_missing_bucket client event w Hb) as (-> & _).
Qed.

End StatusFurther.

(** ** The conversion handler: further properties *)

Section ProcessorFurther.

Import Processor.

Variable client : s3_service.
Variable unquote : string -> string.
Variable options : Type.
Variable empty_dict : options.
Variable json_dumps_indent2 : options -> string.
Variable temp_name : gmap string N -> string -> string.
Variable unlink_error : gmap string N -> string -> option exn.
Variable event : event options.
Variable context : context.
Variable w : world.

Abbreviation handler :=
  (lambda_handler client unquote empty_dict json_dumps_indent2 temp_name
                  unlink_error event context).
Abbreviation temp_pdf := (temp_name (files w) ".pdf").
Abbreviation output_key := (output_key_of event context).
Abbreviation object input_bucket inputS3Key pdf_size :=
  (output_object empty_dict json_dumps_indent2 event context input_bucket
                 (unquote inputS3Key) pdf_size).
Abbreviation failure_location :=
  ("s3://" +:+ get (fields event) "inputS3Bucket" EmptyString +:+ "/"
   +:+ get (fields event) "inputS3Key" EmptyString).

Arguments create_html_content : simpl never.

Ltac run_handler :=
  unfold output_object, output_key_of, output_location_of, output_prefix_of,
    job_id_of in *;
  unfold call, lambda_handler, NamedTemporaryFile, download_file, getsize,
    put_object, unlink, try_except, bind, assign, subscript, load, print, lift,
    raise, ret, logged;
  cbn.

(** A request that lacks a required field is answered with the name of
    the first one missing, and nothing is touched. *)
Lemma handler_first_missing key :
  first_missing event = Some key ->
  (call handler w).1
  = Ok (Failed (job_id_of event context) "FAILED" ("'" +:+ key +:+ "'")
          failure_location)
  /\ s3 (call handler w).2 = s3 w
  /\ s3_log (call handler w).2 = s3_log w
  /\ files (call handler w).2 = files w.
Proof.
  unfold first_missing. intros Hm. run_handler.
  destruct (fields event !! "inputS3Bucket") as [ib|] eqn:Hib; cbn; frame_lookup.
  2:{ by injection Hm as <-. }
  destruct (fields event !! "inputS3Key") as [raw|] eqn:Hraw; cbn; frame_lookup.
  2:{ by injection Hm as <-. }
  destruct (fields event !! "outputS3Bucket") as [ob|] eqn:Hob; cbn; frame_lookup.
  2:{ by injection Hm as <-. }
  discriminate.
Qed.

(** The four ways an invocation can go, each with its response and what
    it leaves behind. *)
Lemma handler_paths :
  (exists key,
      first_missing event = Some key
      /\ (call handler w).1
         = Ok (Failed (job_id_of event context) "FAILED" ("'" +:+ key +:+ "'")
                 failure_location)
      /\ s3 (call handler w).2 = s3 w
      /\ s3_log (call handler w).2 = s3_log w
      /\ files (call handler w).2 = files w)
  \/ exists input_bucket inputS3Key output_bucket,
      fields event !! "inputS3Bucket" = Some input_bucket
      /\ fields event !! "inputS3Key" = Some inputS3Key
      /\ fields event !! "outputS3Bucket" = Some output_bucket
      /\ ((exists e,
              s3_download_file client (s3 w) input_bucket (unquote inputS3Key) = inl e
              /\ (call handler w).1
                 = Ok (Failed (job_id_of event context) "FAILED"
                         ("Failed to download PDF: " +:+ str_exn e) failure_location)
              /\ s3 (call handler w).2 = s3 w
              /\ s3_log (call handler w).2
                 = (s3_log w
                    ++ [DownloadFile input_bucket (unquote inputS3Key) temp_pdf])%list)
          \/ (exists pdf_size e,
                 s3_download_file client (s3 w) input_bucket (unquote inputS3Key)
                 = inr pdf_size
                 /\ s3_put_object client (s3 w) output_bucket output_key
                      (object input_bucket inputS3Key pdf_size) = Some e
                 /\ (call handler w).1
                    = Ok (Failed (job_id_of event context) "FAILED" (str_exn e)
                            failure_location)
                 /\ s3 (call handler w).2 = s3 w
                 /\ s3_log (call handler w).2
                    = (s3_log w
                       ++ [DownloadFile input_bucket (unquote inputS3Key) temp_pdf;
                           PutObject output_bucket output_key
                             (object input_bucket inputS3Key pdf_size)])%list)
          \/ (exists pdf_size,
                 s3_download_file client (s3 w) input_bucket (unquote inputS3Key)
                 = inr pdf_size
                 /\ s3_put_object client (s3 w) output_bucket output_key
                      (object input_bucket inputS3Key pdf_size) = None
                 /\ (call handler w).1
                    = Ok (Completed (job_id_of event context) "COMPLETED"
                            (output_location_of event context output_bucket)
                            (ConversionResult
                               ("s3://" +:+ output_bucket +:+ "/" +:+ output_key)
                               [output_key] 1 0 (QArith_base.Qmake 1 1))
                            ("s3://" +:+ input_bucket +:+ "/" +:+ unquote inputS3Key))
                 /\ s3 (call handler w).2
                    = <[(output_bucket, output_key)
                        := object input_bucket inputS3Key pdf_size]> (s3 w)
                 /\ s3_log (call handler w).2
                    = (s3_log w
                       ++ [DownloadFile input_bucket (unquote inputS3Key) temp_pdf;
                           PutObject output_bucket output_key
                             (object input_bucket inputS3Key pdf_size)])%list)).
Proof.
  destruct (first_missing event) as [key|] eqn:Hm.
  { left. exists key. split; [done|]. by apply handler_first_missing. }
  right. unfold first_missing in Hm.
  destruct (fields event !! "inputS3Bucket") as [ib|] eqn:Hib; [|done].
  destruct (fields event !! "inputS3Key") as [raw|] eqn:Hkey; [|done].
  destruct (fields event !! "outputS3Bucket") as [ob|] eqn:Hob; [|done].
  exists ib, raw, ob. do 3 (split; [done|]).
  destruct (s3_download_file client (s3 w) ib (unquote raw)) as [e|pdf_size] eqn:Hd.
  { left. exists e. split; [done|].
    by destruct (handler_download_error client unquote options empty_dict
                   json_dumps_indent2 temp_name unlink_error event context w
                   ib raw ob Hib Hkey Hob e Hd) as (? & ? & ? & _). }
  right.
  destruct (s3_put_object client (s3 w) ob output_key (object ib raw pdf_size))
    as [e|] eqn:Hp.
  - left. exists pdf_size, e. do 2 (split; [done|]).
    by destruct (handler_upload_error client unquote options empty_dict
                   json_dumps_indent2 temp_name unlink_error event context w
                   ib raw ob Hib Hkey Hob pdf_size e Hd Hp) as (? & ? & ? & _).
  - right. exists pdf_size. do 2 (split; [done|]).
    by destruct (handler_success client unquote options empty_dict
                   json_dumps_indent2 temp_name unlink_error event context w
                   ib raw ob Hib Hkey Hob pdf_size Hd Hp) as (? & ? & ? & _).
Qed.

(** X6.  The conversion handler never lets an exception out: every
    invocation returns a response carrying the job id (the request's, or
    [job-<request id>]), FAILED with an error and the location rebuilt
    from the request, or COMPLETED. *)
Theorem conversion_handler_always_returns :
  (exists error,
      (call handler w).1
      = Ok (Failed (get (fields event) "jobId" ("job-" +:+ aws_request_id context))
              "FAILED" error failure_location))
  \/ (exists outputLocation conversionResult inputLocation,
         (call handler w).1
         = Ok (Completed (get (fields event) "jobId" ("job-" +:+ aws_request_id context))
                 "COMPLETED" outputLocation conversionResult inputLocation)).
Proof.
  destruct handler_paths
    as [(key & _ & Hr & _)
       |(ib & raw & ob & _ & _ & _
         & [(e & _ & Hr & _)|[(n & e & _ & _ & Hr & _)|(n & _ & _ & Hr & _)]])];
    rewrite Hr; eauto.
Qed.

(** X7.  A request that lacks a required field is answered FAILED with
    the quoted name of the first field missing, in the order
    [inputS3Bucket], [inputS3Key], [outputS3Bucket]; no call is made to
    the storage client and no temporary file is created. *)
Theorem missing_field_is_named key :
  first_missing event = Some key ->
  (call handler w).1
  = Ok (Failed (job_id_of event context) "FAILED" ("'" +:+ key +:+ "'")
          failure_location)
  /\ s3 (call handler w).2 = s3 w
  /\ s3_log (call handler w).2 = s3_log w
  /\ files (call handler w).2 = files w.
Proof. apply handler_first_missing. Qed.

(** X8.  The response is COMPLETED exactly when the three required fields
    are present, the download succeeds and the upload succeeds. *)
Theorem completed_iff_all_succeed :
  (exists jobId outputLocation conversionResult inputLocation,
      (call handler w).1
      = Ok (Completed jobId "COMPLETED" outputLocation conversionResult inputLocation))
  <-> exists input_bucket inputS3Key output_bucket pdf_size,
      fields event !! "inputS3Bucket" = Some input_bucket
      /\ fields event !! "inputS3Key" = Some inputS3Key
      /\ fields event !! "outputS3Bucket" = Some output_bucket
      /\ s3_download_file client (s3 w) input_bucket (unquote inputS3Key) = inr pdf_size
      /\ s3_put_object client (s3 w) output_bucket output_key
           (object input_bucket inputS3Key pdf_size) = None.
Proof.
  split.
  - intros (jid & ol & cr & il & Hc).
    destruct handler_paths
      as [(key & _ & Hr & _)
         |(ib & raw & ob & Hib & Hkey & Hob
           & [(e & _ & Hr & _)|[(n & e & _ & _ & Hr & _)|(n & Hd & Hp & _)]])];
      try (rewrite Hr in Hc; discriminate).
    exists ib, raw, ob, n. done.
  - intros (ib & raw & ob & n & Hib & Hkey & Hob & Hd & Hp).
    destruct (handler_success client unquote options empty_dict
                json_dumps_indent2 temp_name unlink_error event context w
                ib raw ob Hib Hkey Hob n Hd Hp) as (Hr & _).
    rewrite Hr. eauto.
Qed.

(** X9.  The upload is attempted only once the three required fields
    were read and the download succeeded, and it is then the second and
    last call to the storage client; an invocation that makes no upload
    call leaves the object store as it was. *)
Theorem upload_only_after_download added :
  s3_log (call handler w).2 = (s3_log w ++ added)%list ->
  (forall Bucket Key stored,
      PutObject Bucket Key stored ∈ added ->
      exists input_bucket inputS3Key pdf_size,
        fields event !! "inputS3Bucket" = Some input_bucket
        /\ fields event !! "inputS3Key" = Some inputS3Key
        /\ fields event !! "outputS3Bucket" = Some Bucket
        /\ s3_download_file client (s3 w) input_bucket (unquote inputS3Key)
           = inr pdf_size
        /\ Key = output_key
        /\ added
           = [DownloadFile input_bucket (unquote inputS3Key) temp_pdf;
              PutObject Bucket Key stored])
  /\ ((forall Bucket Key stored, PutObject Bucket Key stored ∉ added) ->
      s3 (call handler w).2 = s3 w).
Proof.
  intros Hlog.
  destruct handler_paths
    as [(key & _ & _ & Hs & Hl & _)
       |(ib & raw & ob & Hib & Hkey & Hob
         & [(e & Hd & _ & Hs & Hl)
           |[(n & e & Hd & Hp & _ & Hs & Hl)|(n & Hd & Hp & _ & Hs & Hl)]])];
    rewrite Hl in Hlog.
  - rewrite <- (app_nil_r (s3_log w)) in Hlog at 1. apply app_inv_head in Hlog as <-.
    split; [|done]. intros b k o Hin. by apply not_elem_of_nil in Hin.
  - apply app_inv_head in Hlog as <-. split; [|done].
    intros b k o Hin. apply list_elem_of_singleton in Hin. discriminate.
  - apply app_inv_head in Hlog as <-. split; [|done].
    intros b k o Hin. apply elem_of_cons in Hin as [Hin|Hin]; [discriminate|].
    apply list_elem_of_singleton in Hin. injection Hin as -> -> ->.
    exists ib, raw, n. done.
  - apply app_inv_head in Hlog as <-. split.
    + intros b k o Hin. apply elem_of_cons in Hin as [Hin|Hin]; [discriminate|].
      apply list_elem_of_singleton in Hin. injection Hin as -> -> ->.
      exists ib, raw, n. done.
    + intros Hnone. exfalso. eapply Hnone. right. left.
Qed.

(** X10.  When the upload raises after a successful download, the
    response is FAILED with the storage error's own message (it is not
    wrapped as a download error is), and the calls made were the download
    and then the upload. *)
Theorem upload_error_is_reported input_bucket inputS3Key output_bucket pdf_size e :
  fields event !! "inputS3Bucket" = Some input_bucket ->
  fields event !! "inputS3Key" = Some inputS3Key ->
  fields event !! "outputS3Bucket" = Some output_bucket ->
  s3_download_file client (s3 w) input_bucket (unquote inputS3Key) = inr pdf_size ->
  s3_put_object client (s3 w) output_bucket output_key
    (object input_bucket inputS3Key pdf_size) = Some e ->
  (call handler w).1
  = Ok (Failed (job_id_of event context) "FAILED" (str_exn e)
          ("s3://" +:+ input_bucket +:+ "/" +:+ inputS3Key))
  /\ s3_log (call handler w).2
     = (s3_log w
        ++ [DownloadFile input_bucket (unquote inputS3Key) temp_pdf;
            PutObject output_bucket output_key
              (object input_bucket inputS3Key pdf_size)])%list.
Proof.
  intros Hib Hkey Hob Hd Hp.
  destruct (handler_upload_error client unquote options empty_dict
              json_dumps_indent2 temp_name unlink_error event context w
              input_bucket inputS3Key output_bucket Hib Hkey Hob pdf_size e Hd Hp)
    as (Hr & _ & Hl & _).
  rewrite Hr, Hl. unfold get. rewrite Hib, Hkey. done.
Qed.

(** X11.  The only object an invocation can create or overwrite is the
    one at [<outputS3Prefix><jobId>/converted.html] in [outputS3Bucket]:
    every other key of the store holds what it held. *)
Theorem other_objects_are_untouched key :
  key <> (get (fields event) "outputS3Bucket" EmptyString, output_key) ->
  s3 (call handler w).2 !! key = s3 w !! key.
Proof.
  intros Hne.
  destruct handler_paths
    as [(k & _ & _ & Hs & _)
       |(ib & raw & ob & _ & _ & Hob
         & [(e & _ & _ & Hs & _)|[(n & e & _ & _ & _ & Hs & _)|(n & _ & _ & _ & Hs & _)]])];
    rewrite Hs; try done.
  unfold get in Hne. rewrite Hob in Hne. by rewrite lookup_insert_ne.
Qed.

(** X13.  In a COMPLETED response the result's [html_path] is the
    [outputLocation] followed by [converted.html], [output_files] is the
    one key written, and the object is in the store under that key with
    content type [text/html]. *)
Theorem completed_result_names_stored_object
        jobId status outputLocation conversionResult inputLocation :
  (call handler w).1
  = Ok (Completed jobId status outputLocation conversionResult inputLocation) ->
  html_path conversionResult = outputLocation +:+ "converted.html"
  /\ output_files conversionResult = [output_key]
  /\ exists output_bucket stored,
      fields event !! "outputS3Bucket" = Some output_bucket
      /\ html_path conversionResult = "s3://" +:+ output_bucket +:+ "/" +:+ output_key
      /\ s3 (call handler w).2 !! (output_bucket, output_key) = Some stored
      /\ ContentType stored = "text/html".
Proof.
  intros Hc.
  destruct handler_paths
    as [(key & _ & Hr & _)
       |(ib & raw & ob & _ & _ & Hob
         & [(e & _ & Hr & _)|[(n & e & _ & _ & Hr & _)|(n & _ & _ & Hr & Hs & _)]])];
    rewrite Hr in Hc; try discriminate.
  injection Hc as <- <- <- <- <-. cbn [html_path output_files].
  split; [|split; [done|]].
  - unfold output_location_of, output_key_of.
    rewrite !app_assoc_string. reflexivity.
  - exists ob, (object ib raw n). rewrite Hs, lookup_insert_eq. done.
Qed.

(** X17.  A conversion that succeeds and whose [os.unlink] succeeds
    leaves the local disk as it found it, when the temporary name was not
    in use: the staged file is the only file it created, and it is gone. *)
Theorem successful_conversion_cleans_up input_bucket inputS3Key output_bucket pdf_size :
  fields event !! "inputS3Bucket" = Some input_bucket ->
  fields event !! "inputS3Key" = Some inputS3Key ->
  fields event !! "outputS3Bucket" = Some output_bucket ->
  s3_download_file client (s3 w) input_bucket (unquote inputS3Key) = inr pdf_size ->
  s3_put_object client (s3 w) output_bucket output_key
    (object input_bucket inputS3Key pdf_size) = None ->
  files w !! temp_pdf = None ->
  unlink_error (<[temp_pdf := pdf_size]> (<[temp_pdf := 0%N]> (files w))) temp_pdf = None ->
  files (call handler w).2 = files w.
Proof.
  intros Hib Hkey Hob Hd Hp Hfresh Hu.
  destruct (handler_success client unquote options empty_dict
              json_dumps_indent2 temp_name unlink_error event context w
              input_bucket inputS3Key output_bucket Hib Hkey Hob pdf_size Hd Hp)
    as (_ & _ & _ & ->).
  rewrite Hu, !delete_insert_eq. by apply delete_id.
Qed.

End ProcessorFurther.

(** X12.  A failing [os.unlink] is swallowed: whatever removal does, the
    response, the object store and the calls made to the storage client
    are the same. *)
Theorem unlink_failure_is_swallowed
        client unquote options (empty_dict : options) json_dumps_indent2 temp_name
        unlink_error unlink_error' event context w :
  let run :=
    call (Processor.lambda_handler client unquote empty_dict json_dumps_indent2
            temp_name unlink_error event context) w in
  let run' :=
    call (Processor.lambda_handler client unquote empty_dict json_dumps_indent2
            temp_name unlink_error' event context) w in
  run.1 = run'.1 /\ s3 run.2 = s3 run'.2 /\ s3_log run.2 = s3_log run'.2.
Proof.
  cbn zeta.
  destruct (handler_paths client unquote options empty_dict json_dumps_indent2
              temp_name unlink_error event context w)
    as [(key & Hm & Hr & Hs & Hl & _)
       |(ib & raw & ob & Hib & Hkey & Hob
         & [(e & Hd & Hr & Hs & Hl)
           |[(n & e & Hd & Hp & Hr & Hs & Hl)|(n & Hd & Hp & Hr & Hs & Hl)]])];
    rewrite Hr, Hs, Hl.
  - by destruct (handler_first_missing client unquote options empty_dict
                   json_dumps_indent2 temp_name unlink_error' event context w key Hm)
      as (-> & -> & -> & _).
  - by destruct (handler_download_error client unquote options empty_dict
                   json_dumps_indent2 temp_name unlink_error' event context w
                   ib raw ob Hib Hkey Hob e Hd) as (-> & -> & -> & _).
  - by destruct (handler_upload_error client unquote options empty_dict
                   json_dumps_indent2 temp_name unlink_error' event context w
                   ib raw ob Hib Hkey Hob n e Hd Hp) as (-> & -> & -> & _).
  - by destruct (handler_success client unquote options empty_dict
                   json_dumps_indent2 temp_name unlink_error' event context w
                   ib raw ob Hib Hkey Hob n Hd Hp) as (-> & -> & -> & _).
Qed.

(** ** The file size in the generated document *)

Lemma digits_have_no_comma d :
  ~ In ","%char (list_ascii_of_string (NilEmpty.string_of_uint d)).
Proof.
  induction d; cbn; intros H; try done;
    destruct H as [H|H]; try discriminate H; auto.
Qed.

Lemma str_N_has_no_comma n : ~ In ","%char (list_ascii_of_string (str_N n)).
Proof.
  unfold str_N, NilZero.string_of_uint.
  destruct (N.to_uint n) eqn:Hd; try (rewrite <- Hd; apply digits_have_no_comma).
  cbn. intros [H|H]; [discriminate H | done].
Qed.

Abbreviation not_comma := (fun c : ascii => negb (Ascii.eqb c ","%char)).

Lemma prefix_nil s : String.prefix EmptyString s = true.
Proof. by destruct s. Qed.

(** Replacing the comma by nothing filters the commas out. *)
Lemma replace_comma l :
  replace (string_of_list_ascii l) "," EmptyString
  = string_of_list_ascii (List.filter not_comma l).
Proof.
  unfold replace. induction l as [|c l IH]; [done|].
  cbn [string_of_list_ascii replace_from String.prefix List.filter].
  destruct (ascii_dec ","%char c) as [<-|Hne].
  - rewrite prefix_nil. cbn. exact IH.
  - assert (Ascii.eqb c ","%char = false) as -> by (apply Ascii.eqb_neq; congruence).
    cbn. by rewrite IH.
Qed.

Lemma filter_commas l i :
  ~ In ","%char l -> List.filter not_comma (Processor.commas l i) = l.
Proof.
  revert i. induction l as [|c l IH]; intros i Hn; [done|].
  assert (Hc : Ascii.eqb c ","%char = false).
  { apply Ascii.eqb_neq. intros ->. apply Hn. by left. }
  assert (Hl : ~ In ","%char l) by (intros H; apply Hn; by right).
  destruct i as [|[|[|[|i]]]]; cbn [Processor.commas List.filter];
    rewrite ?Hc; cbn; by rewrite IH.
Qed.

Lemma length_commas l i :
  (i <= 3)%nat ->
  length (Processor.commas l i) = (length l + (length l + i - 1) / 3)%nat.
Proof.
  revert i. induction l as [|c l IH]; intros i Hi.
  - cbn. destruct i as [|[|[|[|i]]]]; try lia; reflexivity.
  - destruct i as [|[|[|[|i]]]]; try lia; cbn [Processor.commas length];
      rewrite IH by lia.
    + replace (S (length l) + 0 - 1)%nat with (length l + 1 - 1)%nat by lia. lia.
    + replace (S (length l) + 1 - 1)%nat with (length l + 2 - 1)%nat by lia. lia.
    + replace (S (length l) + 2 - 1)%nat with (length l + 3 - 1)%nat by lia. lia.
    + replace (S (length l) + 3 - 1)%nat with (length l + 1 * 3)%nat by lia.
      rewrite Nat.div_add by lia.
      replace (length l + 1 - 1)%nat with (length l) by lia. lia.
Qed.

Lemma length_string_of_list l : String.length (string_of_list_ascii l) = length l.
Proof. induction l as [|c l IH]; cbn; [done | by rewrite IH]. Qed.

Lemma length_list_of_string s : length (list_ascii_of_string s) = String.length s.
Proof. induction s as [|c s IH]; cbn; [done | by rewrite IH]. Qed.

(** The formatted size keeps the digits of [str(pdf_size)] and has one
    comma for every three digits after the first group. *)
Theorem format_thousands_groups_digits n :
  replace (Processor.format_thousands n) "," EmptyString = str_N n
  /\ String.length (Processor.format_thousands n)
     = (String.length (str_N n) + (String.length (str_N n) - 1) / 3)%nat.
Proof.
  unfold Processor.format_thousands. split.
  - rewrite replace_comma, List.filter_rev, filter_commas.
    + by rewrite List.rev_involutive, string_of_list_ascii_of_string.
    + rewrite <- List.in_rev. apply str_N_has_no_comma.
  - rewrite length_string_of_list, List.length_rev, length_commas by lia.
    rewrite List.length_rev, length_list_of_string.
    by rewrite Nat.add_0_r.
Qed.

Lemma commas_short l i : (i + length l <= 3)%nat -> Processor.commas l i = l.
Proof.
  revert i. induction l as [|c l IH]; intros i Hi; [done|].
  cbn [length] in Hi.
  destruct i as [|[|[|[|i]]]]; try lia; cbn [Processor.commas]; by rewrite IH by lia.
Qed.

Lemma commas_carry l :
  l <> [] -> Processor.commas l 3 = ","%char :: Processor.commas l 0.
Proof. by destruct l. Qed.

Lemma list_of_string_app s t :
  list_ascii_of_string (s +:+ t) = (list_ascii_of_string s ++ list_ascii_of_string t)%list.
Proof.
  induction s as [|c s IH]; [done|].
  rewrite app_cons. cbn [list_ascii_of_string]. by rewrite IH.
Qed.

Lemma string_of_list_app l k :
  string_of_list_ascii (l ++ k) = string_of_list_ascii l +:+ string_of_list_ascii k.
Proof.
  induction l as [|c l IH]; [done|].
  cbn [app string_of_list_ascii]. by rewrite IH, app_cons.
Qed.

Lemma str_N_nonempty n : list_ascii_of_string (str_N n) <> [].
Proof.
  unfold str_N, NilZero.string_of_uint. by destruct (N.to_uint n).
Qed.

(** Up to three digits are written as they are. *)
Lemma format_thousands_small n :
  (String.length (str_N n) <= 3)%nat -> Processor.format_thousands n = str_N n.
Proof.
  intros Hn. unfold Processor.format_thousands.
  rewrite commas_short.
  - by rewrite List.rev_involutive, string_of_list_ascii_of_string.
  - rewrite List.length_rev, length_list_of_string. lia.
Qed.

(** The last three digits are set off by a comma, and what comes before
    them is formatted in the same way. *)
Lemma format_thousands_step n m b :
  str_N n = str_N m +:+ b ->
  String.length b = 3%nat ->
  Processor.format_thousands n = Processor.format_thousands m +:+ "," +:+ b.
Proof.
  intros Hn Hb. unfold Processor.format_thousands. rewrite Hn, list_of_string_app.
  destruct b as [|x1 [|x2 [|x3 [|x4 b]]]]; try discriminate Hb. clear Hb.
  cbn [list_ascii_of_string]. rewrite List.rev_app_distr.
  cbn [List.rev app Processor.commas].
  rewrite commas_carry.
  2:{ intros Hnil. apply (f_equal (@List.rev ascii)) in Hnil.
      rewrite List.rev_involutive in Hnil. by apply str_N_nonempty in Hnil. }
  cbn [List.rev]. rewrite <- !app_assoc. cbn [app].
  by rewrite string_of_list_app.
Qed.

Lemma app_empty_r s : s +:+ EmptyString = s.
Proof. induction s as [|c s IH]; [done|]. rewrite app_cons. congruence. Qed.

(** A line of a triple-quoted literal is a part of the text. *)
Lemma unlines_lookup ls i line :
  ls !! i = Some line ->
  exists before after, Processor.unlines ls = before +:+ line +:+ after.
Proof.
  revert i. induction ls as [|x ls IH]; intros i Hi; [done|].
  destruct i as [|i].
  - injection Hi as ->. destruct ls as [|y ls].
    + exists EmptyString, EmptyString. cbn [Processor.unlines].
      by rewrite app_nil, app_empty_r.
    + exists EmptyString. eexists. cbn [Processor.unlines]. by rewrite app_nil.
  - cbn in Hi. destruct (IH i Hi) as (before & after & Heq).
    destruct ls as [|y ls]; [done|].
    exists (x +:+ Processor.nl +:+ before), after.
    change (Processor.unlines (x :: y :: ls))
      with (x +:+ Processor.nl +:+ Processor.unlines (y :: ls)).
    rewrite Heq. by rewrite !app_assoc_string.
Qed.

Section DocumentSize.

Import Processor.

Variable client : s3_service.
Variable unquote : string -> string.
Variable options : Type.
Variable empty_dict : options.
Variable json_dumps_indent2 : options -> string.
Variable temp_name : gmap string N -> string -> string.
Variable unlink_error : gmap string N -> string -> option exn.
Variable event : event options.
Variable context : context.
Variable w : world.

Abbreviation handler :=
  (lambda_handler client unquote empty_dict json_dumps_indent2 temp_name
                  unlink_error event context).

(** X14.  The document a successful conversion stores has the line
    [<li><strong>File Size:</strong> ... bytes</li>] with the size of the
    downloaded file written in groups of three digits from the right: up
    to three digits as they are, and otherwise a comma before the last
    three digits, what precedes them being grouped in the same way; taking
    the commas out gives back [str(pdf_size)]. *)
Theorem stored_document_reports_size input_bucket inputS3Key output_bucket pdf_size :
  fields event !! "inputS3Bucket" = Some input_bucket ->
  fields event !! "inputS3Key" = Some inputS3Key ->
  fields event !! "outputS3Bucket" = Some output_bucket ->
  s3_download_file client (s3 w) input_bucket (unquote inputS3Key) = inr pdf_size ->
  s3_put_object client (s3 w) output_bucket (output_key_of event context)
    (output_object empty_dict json_dumps_indent2 event context input_bucket
       (unquote inputS3Key) pdf_size) = None ->
  (exists stored before after,
      s3 (call handler w).2 !! (output_bucket, output_key_of event context)
      = Some stored
      /\ Body stored
         = before
           +:+ ("            <li><strong>File Size:</strong> "
                +:+ format_thousands pdf_size +:+ " bytes</li>")
           +:+ after)
  /\ replace (format_thousands pdf_size) "," EmptyString = str_N pdf_size
  /\ ((String.length (str_N pdf_size) <= 3)%nat ->
      format_thousands pdf_size = str_N pdf_size)
  /\ (forall m last3,
        str_N pdf_size = str_N m +:+ last3 ->
        String.length last3 = 3%nat ->
        format_thousands pdf_size = format_thousands m +:+ "," +:+ last3).
Proof.
  intros Hib Hkey Hob Hd Hp.
  destruct (handler_success client unquote options empty_dict
              json_dumps_indent2 temp_name unlink_error event context w
              input_bucket inputS3Key output_bucket Hib Hkey Hob pdf_size Hd Hp)
    as (_ & Hs & _).
  split; [|split; [|split]].
  - assert (Hline : exists before after,
              create_html_content json_dumps_indent2 (job_id_of event context)
                (unquote inputS3Key) input_bucket pdf_size
                (default empty_dict (conversionOptions event)) (aws_request_id context)
              = before
                +:+ ("            <li><strong>File Size:</strong> "
                     +:+ format_thousands pdf_size +:+ " bytes</li>")
                +:+ after).
    { unfold create_html_content. apply (unlines_lookup _ 24). reflexivity. }
    destruct Hline as (before & after & Hline).
    eexists _, before, after. rewrite Hs, lookup_insert_eq. split; [done|].
    exact Hline.
  - apply format_thousands_groups_digits.
  - apply format_thousands_small.
  - intros m last3. apply format_thousands_step.
Qed.

End DocumentSize.

(** ** The two handlers together *)

Section Workflow.

Variable client : s3_service.
Variable unquote : string -> string.
Variable options : Type.
Variable empty_dict : options.
Variable json_dumps_indent2 : options -> string.
Variable temp_name : gmap string N -> string -> string.
Variable unlink_error : gmap string N -> string -> option exn.
Variable event : Processor.event options.
Variable context : Processor.context.
Variable w : world.

Abbreviation conversion :=
  (call (Processor.lambda_handler client unquote empty_dict json_dumps_indent2
           temp_name unlink_error event context) w).
Abbreviation output_key := (Processor.output_key_of event context).
Abbreviation object input_bucket inputS3Key pdf_size :=
  (Processor.output_object empty_dict json_dumps_indent2 event context input_bucket
     (unquote inputS3Key) pdf_size).

Variables input_bucket inputS3Key output_bucket : string.
Variable pdf_size : N.
Hypothesis Hib : Processor.fields event !! "inputS3Bucket" = Some input_bucket.
Hypothesis Hkey : Processor.fields event !! "inputS3Key" = Some inputS3Key.
Hypothesis Hob : Processor.fields event !! "outputS3Bucket" = Some output_bucket.
Hypothesis Hdownload :
  s3_download_file client (s3 w) input_bucket (unquote inputS3Key) = inr pdf_size.
Hypothesis Hupload :
  s3_put_object client (s3 w) output_bucket output_key
    (object input_bucket inputS3Key pdf_size) = None.

(** X15.  A conversion that succeeded for a request with a [jobId] is
    seen by the status handler: run on the same fields in the world the
    conversion left, with the listing returning the key that was written,
    it answers COMPLETED with [filesFound = ["converted.html"]] and the
    [outputLocation] the conversion returned. *)
Theorem converted_job_is_reported_completed job_id :
  Processor.fields event !! "jobId" = Some job_id ->
  s3_list_objects_v2 client (s3 conversion.2) output_bucket
    (StatusChecker.job_output_prefix (Processor.fields event))
  = inr (Some [output_key]) ->
  exists outputLocation conversionResult inputLocation,
    conversion.1
    = Ok (Processor.Completed job_id "COMPLETED" outputLocation conversionResult
            inputLocation)
    /\ (call (StatusChecker.lambda_handler client (Processor.fields event))
             conversion.2).1
       = Ok (StatusChecker.StatusResponse job_id "COMPLETED" outputLocation
               ["converted.html"]).
Proof.
  intros Hjob Hlist.
  destruct (handler_success client unquote options empty_dict json_dumps_indent2
              temp_name unlink_error event context w input_bucket inputS3Key
              output_bucket Hib Hkey Hob pdf_size Hdownload Hupload) as (Hr & _).
  destruct (handler_listing_ok client (Processor.fields event) conversion.2
              output_bucket (Some [output_key]) Hob Hlist) as (Hs & _).
  change (StatusChecker.listed (Some [output_key])) with [output_key] in Hs.
  assert (Hid : Processor.job_id_of event context = job_id).
  { unfold Processor.job_id_of, get. by rewrite Hjob. }
  assert (Hid' : get (Processor.fields event) "jobId" "unknown" = job_id).
  { unfold get. by rewrite Hjob. }
  assert (Hsplit : output_key
                   = StatusChecker.job_output_prefix (Processor.fields event)
                     +:+ "converted.html").
  { unfold Processor.output_key_of, StatusChecker.job_output_prefix,
      Processor.output_prefix_of.
    rewrite Hid, Hid', !app_assoc_string. reflexivity. }
  assert (Hname : replace output_key
                    (StatusChecker.job_output_prefix (Processor.fields event))
                    EmptyString
                  = "converted.html").
  { rewrite Hsplit. apply replace_strip.
    - unfold StatusChecker.job_output_prefix. by do 2 apply append_nonempty_r.
    - unfold StatusChecker.job_output_prefix. rewrite <- app_assoc_string.
      apply not_occurs_without_last. cbn. intros H.
      repeat destruct H as [H|H]; try discriminate H; done. }
  cbn [map] in Hs. rewrite Hname, Hid' in Hs.
  eexists _, _, _. split; [rewrite Hr, Hid; reflexivity|].
  rewrite Hs. unfold Processor.output_location_of, StatusChecker.job_output_prefix,
    Processor.output_prefix_of. rewrite Hid, Hid'. reflexivity.
Qed.

(** X16.  For a request without [jobId] the two handlers fall back on
    different job ids, [job-<request id>] and [unknown]: the prefix the
    status handler lists is not a prefix of the key the conversion wrote,
    so a listing by prefix cannot return that key. *)
Theorem default_job_ids_do_not_meet :
  Processor.fields event !! "jobId" = None ->
  exists Prefix object,
    s3_log conversion.2
    = (s3_log w
       ++ [DownloadFile input_bucket (unquote inputS3Key) (temp_name (files w) ".pdf");
           PutObject output_bucket output_key object])%list
    /\ (forall w',
          s3_log (call (StatusChecker.lambda_handler client (Processor.fields event))
                       w').2
          = (s3_log w' ++ [ListObjectsV2 output_bucket Prefix])%list)
    /\ String.prefix Prefix output_key = false.
Proof.
  intros Hjob.
  destruct (handler_success client unquote options empty_dict json_dumps_indent2
              temp_name unlink_error event context w input_bucket inputS3Key
              output_bucket Hib Hkey Hob pdf_size Hdownload Hupload)
    as (_ & _ & Hl & _).
  exists (StatusChecker.job_output_prefix (Processor.fields event)), 
    (object input_bucket inputS3Key pdf_size).
  split; [exact Hl|]. split.
  - intros w'.
    destruct (s3_list_objects_v2 client (s3 w') output_bucket
                (StatusChecker.job_output_prefix (Processor.fields event)))
      as [e|response] eqn:Hlist.
    + by destruct (handler_listing_error client (Processor.fields event) w'
                     output_bucket e Hob Hlist) as (_ & _ & ->).
    + by destruct (handler_listing_ok client (Processor.fields event) w'
                     output_bucket response Hob Hlist) as (_ & _ & ->).
  - unfold StatusChecker.job_output_prefix, Processor.output_key_of,
      Processor.output_prefix_of, Processor.job_id_of, get at 2 4.
    rewrite Hjob. cbn [default from_option]. rewrite prefix_app_same. reflexivity.
Qed.

End Workflow.

(** ** The further properties on concrete requests *)

Lemma listing_failure_is_reported_witness :
  let client := listing_service (inl (Exception "Access Denied")) in
  job1_status !! "outputS3Bucket" = Some "out"
  /\ s3_list_objects_v2 client (s3 empty_world) "out"
       (StatusChecker.job_output_prefix job1_status)
     = inl (Exception "Access Denied")
  /\ (call (StatusChecker.lambda_handler client job1_status) empty_world).1
     = Ok (StatusChecker.ErrorResponse "job1" "FAILED" "Access Denied"
             "s3://out/converted/job1/")
  /\ s3 (call (StatusChecker.lambda_handler client job1_status) empty_world).2 = ∅.
Proof.
  cbn zeta. do 2 (split; [reflexivity|]).
  apply (listing_failure_is_reported
           (listing_service (inl (Exception "Access Denied"))) job1_status
           empty_world "out" (Exception "Access Denied")); reflexivity.
Defined.

Lemma html_key_means_completed_witness :
  let Contents := ["converted/job1/log.txt"; "converted/job1/out/converted/job1/a.html"] in
  let client := listing_service (inr (Some Contents)) in
  job1_status !! "outputS3Bucket" = Some "out"
  /\ "converted/job1/out/converted/job1/a.html" ∈ Contents
  /\ endswith "converted/job1/out/converted/job1/a.html" ".html" = true
  /\ exists files_found,
      (call (StatusChecker.lambda_handler client job1_status) empty_world).1
      = Ok (StatusChecker.StatusResponse "job1" "COMPLETED" "s3://out/converted/job1/"
              files_found).
Proof.
  cbn zeta. split; [reflexivity|].
  assert (Hin : "converted/job1/out/converted/job1/a.html"
                ∈ ["converted/job1/log.txt"; "converted/job1/out/converted/job1/a.html"])
    by (right; left).
  split; [exact Hin|]. split; [reflexivity|].
  exact (html_key_means_completed
           (listing_service
              (inr (Some ["converted/job1/log.txt";
                          "converted/job1/out/converted/job1/a.html"])))
           job1_status empty_world "out" _ _ eq_refl eq_refl Hin eq_refl).
Defined.

Lemma names_under_prefix_are_kept_witness :
  let names := ["converted.html"; "images/page1.png"] in
  let client :=
    listing_service
      (inr (Some ["converted/job1/converted.html"; "converted/job1/images/page1.png"])) in
  job1_status !! "outputS3Bucket" = Some "out"
  /\ Forall (fun name => occurs (StatusChecker.job_output_prefix job1_status) name = false)
            names
  /\ exists status,
      (call (StatusChecker.lambda_handler client job1_status) empty_world).1
      = Ok (StatusChecker.StatusResponse "job1" status "s3://out/converted/job1/" names).
Proof.
  cbn zeta. split; [reflexivity|].
  assert (Hnames : Forall (fun name =>
                             occurs (StatusChecker.job_output_prefix job1_status) name
                             = false)
                          ["converted.html"; "images/page1.png"])
    by (repeat constructor).
  split; [exact Hnames|].
  exact (names_under_prefix_are_kept
           (listing_service
              (inr (Some ["converted/job1/converted.html";
                          "converted/job1/images/page1.png"])))
           job1_status empty_world "out" ["converted.html"; "images/page1.png"]
           eq_refl eq_refl Hnames).
Defined.

Lemma missing_field_is_named_witness :
  let client := constant_service (inr None) (inr 1234567%N) None in
  first_missing no_output_bucket = Some "outputS3Bucket"
  /\ (call (convert client no_output_bucket) empty_world).1
     = Ok (Processor.Failed "job1" "FAILED" "'outputS3Bucket'" "s3://in/a%20b.pdf")
  /\ s3 (call (convert client no_output_bucket) empty_world).2 = ∅
  /\ s3_log (call (convert client no_output_bucket) empty_world).2 = []
  /\ files (call (convert client no_output_bucket) empty_world).2 = ∅.
Proof.
  cbn zeta. split; [reflexivity|].
  apply (missing_field_is_named
           (constant_service (inr None) (inr 1234567%N) None) percent_decode unit tt
           (fun _ => "{}") tmp_q3x9 (fun _ _ => None) no_output_bucket request_1
           empty_world "outputS3Bucket").
  reflexivity.
Defined.

Lemma upload_only_after_download_witness :
  let client := constant_service (inr None) (inl not_found) None in
  let run := call (convert client job1_conversion) empty_world in
  let added := [DownloadFile "in" "a b.pdf" "/tmp/tmpq3x9.pdf"] in
  s3_log run.2 = (s3_log empty_world ++ added)%list
  /\ (forall Bucket Key stored, PutObject Bucket Key stored ∉ added)
  /\ s3 run.2 = s3 empty_world.
Proof.
  cbn zeta.
  assert (Hlog : s3_log (call (convert (constant_service (inr None) (inl not_found) None)
                                       job1_conversion) empty_world).2
                 = (s3_log empty_world
                    ++ [DownloadFile "in" "a b.pdf" "/tmp/tmpq3x9.pdf"])%list)
    by reflexivity.
  assert (Hnone : forall Bucket Key stored,
             PutObject Bucket Key stored ∉ [DownloadFile "in" "a b.pdf" "/tmp/tmpq3x9.pdf"]).
  { intros b k o Hin. apply list_elem_of_singleton in Hin. discriminate. }
  split; [exact Hlog|]. split; [exact Hnone|].
  destruct (upload_only_after_download
              (constant_service (inr None) (inl not_found) None) percent_decode unit tt
              (fun _ => "{}") tmp_q3x9 (fun _ _ => None) job1_conversion request_1
              empty_world _ Hlog)
    as [_ Hstore].
  exact (Hstore Hnone).
Defined.

Lemma upload_error_is_reported_witness :
  let client := constant_service (inr None) (inr 1234567%N) (Some (Exception "Access Denied")) in
  let object :=
    Processor.output_object tt (fun _ => "{}") job1_conversion request_1 "in"
                            "a b.pdf" 1234567%N in
  Processor.fields job1_conversion !! "inputS3Bucket" = Some "in"
  /\ Processor.fields job1_conversion !! "inputS3Key" = Some "a%20b.pdf"
  /\ Processor.fields job1_conversion !! "outputS3Bucket" = Some "out"
  /\ s3_download_file client (s3 empty_world) "in" (percent_decode "a%20b.pdf")
     = inr 1234567%N
  /\ s3_put_object client (s3 empty_world) "out" "converted/job1/converted.html" object
     = Some (Exception "Access Denied")
  /\ (call (convert client job1_conversion) empty_world).1
     = Ok (Processor.Failed "job1" "FAILED" "Access Denied" "s3://in/a%20b.pdf")
  /\ s3_log (call (convert client job1_conversion) empty_world).2
     = [DownloadFile "in" "a b.pdf" "/tmp/tmpq3x9.pdf";
        PutObject "out" "converted/job1/converted.html" object].
Proof.
  cbn zeta. do 5 (split; [reflexivity|]).
  apply (upload_error_is_reported
           (constant_service (inr None) (inr 1234567%N) (Some (Exception "Access Denied")))
           percent_decode unit tt (fun _ => "{}") tmp_q3x9 (fun _ _ => None)
           job1_conversion request_1 empty_world "in" "a%20b.pdf" "out" 1234567%N
           (Exception "Access Denied"));
    reflexivity.
Defined.

Lemma other_objects_are_untouched_witness :
  let client := constant_service (inr None) (inr 1234567%N) None in
  let before :=
    World {[ ("out", "converted/job0/converted.html")
             := S3Object "<html></html>" "text/html" ∅ ]} [] ∅ [] in
  ("out", "converted/job0/converted.html")
  <> (get (Processor.fields job1_conversion) "outputS3Bucket" EmptyString,
      Processor.output_key_of job1_conversion request_1)
  /\ s3 (call (convert client job1_conversion) before).2
       !! ("out", "converted/job0/converted.html")
     = Some (S3Object "<html></html>" "text/html" ∅).
Proof.
  cbn zeta.
  assert (Hne : ("out", "converted/job0/converted.html")
                <> (get (Processor.fields job1_conversion) "outputS3Bucket" EmptyString,
                    Processor.output_key_of job1_conversion request_1))
    by (vm_compute; discriminate).
  split; [exact Hne|].
  rewrite (other_objects_are_untouched
             (constant_service (inr None) (inr 1234567%N) None) percent_decode unit tt
             (fun _ => "{}") tmp_q3x9 (fun _ _ => None) job1_conversion request_1
             _ _ Hne).
  reflexivity.
Defined.

Lemma completed_result_names_stored_object_witness :
  let client := constant_service (inr None) (inr 1234567%N) None in
  let result :=
    Processor.ConversionResult "s3://out/converted/job1/converted.html"
      ["converted/job1/converted.html"] 1 0 (QArith_base.Qmake 1 1) in
  (call (convert client job1_conversion) empty_world).1
  = Ok (Processor.Completed "job1" "COMPLETED" "s3://out/converted/job1/" result
          "s3://in/a b.pdf")
  /\ Processor.html_path result = "s3://out/converted/job1/" +:+ "converted.html"
  /\ Processor.output_files result = ["converted/job1/converted.html"]
  /\ exists output_bucket stored,
      Processor.fields job1_conversion !! "outputS3Bucket" = Some output_bucket
      /\ Processor.html_path result
         = "s3://" +:+ output_bucket +:+ "/" +:+ "converted/job1/converted.html"
      /\ s3 (call (convert client job1_conversion) empty_world).2
           !! (output_bucket, "converted/job1/converted.html")
         = Some stored
      /\ ContentType stored = "text/html".
Proof.
  cbn zeta.
  assert (Hrun : (call (convert (constant_service (inr None) (inr 1234567%N) None)
                                job1_conversion) empty_world).1
                 = Ok (Processor.Completed "job1" "COMPLETED" "s3://out/converted/job1/"
                         (Processor.ConversionResult
                            "s3://out/converted/job1/converted.html"
                            ["converted/job1/converted.html"] 1 0
                            (QArith_base.Qmake 1 1))
                         "s3://in/a b.pdf")) by reflexivity.
  split; [exact Hrun|].
  exact (completed_result_names_stored_object
           (constant_service (inr None) (inr 1234567%N) None) percent_decode unit tt
           (fun _ => "{}") tmp_q3x9 (fun _ _ => None) job1_conversion request_1
           empty_world _ _ _ _ _ Hrun).
Defined.

Lemma converted_job_is_reported_completed_witness :
  let client :=
    constant_service (inr (Some ["converted/job1/converted.html"])) (inr 1234567%N)
                     None in
  let conversion := call (convert client job1_conversion) empty_world in
  Processor.fields job1_conversion !! "jobId" = Some "job1"
  /\ s3_list_objects_v2 client (s3 conversion.2) "out"
       (StatusChecker.job_output_prefix (Processor.fields job1_conversion))
     = inr (Some [Processor.output_key_of job1_conversion request_1])
  /\ exists outputLocation conversionResult inputLocation,
      conversion.1
      = Ok (Processor.Completed "job1" "COMPLETED" outputLocation conversionResult
              inputLocation)
      /\ (call (StatusChecker.lambda_handler client (Processor.fields job1_conversion))
               conversion.2).1
         = Ok (StatusChecker.StatusResponse "job1" "COMPLETED" outputLocation
                 ["converted.html"]).
Proof.
  cbn zeta. do 2 (split; [reflexivity|]).
  apply (converted_job_is_reported_completed
           (constant_service (inr (Some ["converted/job1/converted.html"]))
                             (inr 1234567%N) None)
           percent_decode unit tt (fun _ => "{}") tmp_q3x9 (fun _ _ => None)
           job1_conversion request_1 empty_world "in" "a%20b.pdf" "out" 1234567%N);
    reflexivity.
Defined.

Lemma default_job_ids_do_not_meet_witness :
  let client := constant_service (inr None) (inr 1234567%N) None in
  Processor.fields no_job_id !! "jobId" = None
  /\ Processor.output_key_of no_job_id request_1 = "converted/job-req-1/converted.html"
  /\ exists Prefix object,
      s3_log (call (convert client no_job_id) empty_world).2
      = (s3_log empty_world
         ++ [DownloadFile "in" (percent_decode "a%20b.pdf")
                          (tmp_q3x9 (files empty_world) ".pdf");
             PutObject "out" (Processor.output_key_of no_job_id request_1) object])%list
      /\ (forall w',
            s3_log (call (StatusChecker.lambda_handler client
                            (Processor.fields no_job_id)) w').2
            = (s3_log w' ++ [ListObjectsV2 "out" Prefix])%list)
      /\ String.prefix Prefix (Processor.output_key_of no_job_id request_1) = false.
Proof.
  cbn zeta. do 2 (split; [reflexivity|]).
  apply (default_job_ids_do_not_meet
           (constant_service (inr None) (inr 1234567%N) None) percent_decode unit tt
           (fun _ => "{}") tmp_q3x9 (fun _ _ => None) no_job_id request_1 empty_world
           "in" "a%20b.pdf" "out" 1234567%N);
    reflexivity.
Defined.

Lemma successful_conversion_cleans_up_witness :
  let client := constant_service (inr None) (inr 1234567%N) None in
  let before := World ∅ [] {[ "/tmp/other.pdf" := 42%N ]} [] in
  Processor.fields job1_conversion !! "inputS3Bucket" = Some "in"
  /\ Processor.fields job1_conversion !! "inputS3Key" = Some "a%20b.pdf"
  /\ Processor.fields job1_conversion !! "outputS3Bucket" = Some "out"
  /\ files before !! tmp_q3x9 (files before) ".pdf" = None
  /\ files (call (convert client job1_conversion) before).2 = files before
  /\ files before = {[ "/tmp/other.pdf" := 42%N ]}.
Proof.
  cbn zeta. do 4 (split; [reflexivity|]). split; [|reflexivity].
  apply (successful_conversion_cleans_up
           (constant_service (inr None) (inr 1234567%N) None) percent_decode unit tt
           (fun _ => "{}") tmp_q3x9 (fun _ _ => None) job1_conversion request_1
           (World ∅ [] {[ "/tmp/other.pdf" := 42%N ]} []) "in" "a%20b.pdf" "out"
           1234567%N);
    reflexivity.
Defined.

Lemma stored_document_reports_size_witness :
  let client := constant_service (inr None) (inr 1234567%N) None in
  let run := call (convert client job1_conversion) empty_world in
  Processor.fields job1_conversion !! "inputS3Bucket" = Some "in"
  /\ Processor.fields job1_conversion !! "inputS3Key" = Some "a%20b.pdf"
  /\ Processor.fields job1_conversion !! "outputS3Bucket" = Some "out"
  /\ s3_download_file client (s3 empty_world) "in" (percent_decode "a%20b.pdf")
     = inr 1234567%N
  /\ (exists stored before after,
        s3 run.2 !! ("out", "converted/job1/converted.html") = Some stored
        /\ Body stored
           = before
             +:+ ("            <li><strong>File Size:</strong> " +:+ "1,234,567"
                  +:+ " bytes</li>")
             +:+ after)
  /\ Processor.format_thousands 1234567 = Processor.format_thousands 1234 +:+ "," +:+ "567"
  /\ Processor.format_thousands 1234 = "1" +:+ "," +:+ "234"
  /\ Processor.format_thousands 1234567 = "1,234,567".
Proof.
  cbn zeta. do 4 (split; [reflexivity|]).
  destruct (stored_document_reports_size
              (constant_service (inr None) (inr 1234567%N) None) percent_decode unit tt
              (fun _ => "{}") tmp_q3x9 (fun _ _ => None) job1_conversion request_1
              empty_world "in" "a%20b.pdf" "out" 1234567%N
              eq_refl eq_refl eq_refl eq_refl eq_refl)
    as (Hdocument & _ & _ & Hstep).
  split; [exact Hdocument|].
  split; [exact (Hstep 1234%N "567" eq_refl eq_refl)|].
  split; reflexivity.
Defined.
